(** * Transfer-learning toolkit: model export, hostfile parsing, mixed
      precision and the quantization workflow

    A shallow embedding of [tlt/models/tf_model.py] (class [TFModel]) and of
    the contract in [tlt/models/model.py], with the properties the
    specification states about them. *)

From Stdlib Require Import ZArith QArith Ascii String DecimalString DecimalNat Lia.
From stdpp Require Import gmap strings list fin_maps.

Local Open Scope string_scope.
Local Open Scope list_scope.
Set Warnings "-register-all".

(** ** Python exceptions and results *)

Inductive exn_class :=
  | TypeError
  | ValueError
  | IndexError
  | FileExistsError
  | FileNotFoundError
  | NotADirectoryError
  | NotImplementedError
  | OSError
  | UsageError
  | LibraryError.

Record exn := Exn { exn_cls : exn_class; exn_msg : string }.

Inductive result (A : Type) :=
  | Ok (a : A)
  | Raise (e : exn).
Arguments Ok {A} a.
Arguments Raise {A} e.

#[global] Instance result_ret : MRet result := λ A a, Ok a.
#[global] Instance result_bind : MBind result := λ A B f r,
  match r with
  | Ok a => f a
  | Raise e => Raise e
  end.

Definition is_ok {A} (r : result A) : bool :=
  match r with Ok _ => true | Raise _ => false end.

(** ** The file system

    A directory maps entry names to nodes; a path is the list of its
    components.  [os.path.join p name] is [p ++ [name]] for a name that is
    one relative component. *)

Module FS.

Inductive node :=
  | File
  | Dir (entries : gmap string node).

Definition path := list string.

Definition empty_dir : node := Dir ∅.

Fixpoint lookup (n : node) (p : path) : option node :=
  match p with
  | [] => Some n
  | c :: p' =>
      match n with
      | File => None
      | Dir es => m ← es !! c; lookup m p'
      end
  end.

(** [os.path.exists] and [os.path.isfile] *)
Definition exists_ (fs : node) (p : path) : bool :=
  match lookup fs p with Some _ => true | None => false end.

Definition isfile (fs : node) (p : path) : bool :=
  match lookup fs p with Some File => true | _ => false end.

Definition isdir (fs : node) (p : path) : bool :=
  match lookup fs p with Some (Dir _) => true | _ => false end.

(** [os.listdir]: the entry names of a directory *)
Definition listdir (fs : node) (p : path) : result (list string) :=
  match lookup fs p with
  | Some (Dir es) => Ok (map fst (map_to_list es))
  | Some File => Raise (Exn NotADirectoryError "Not a directory")
  | None => Raise (Exn FileNotFoundError "No such file or directory")
  end.

(** [os.makedirs]: creates the directory and every missing ancestor, keeping
    what is there; an ancestor that is a file makes it fail. *)
Fixpoint makedirs (n : node) (p : path) : option node :=
  match n with
  | File => None
  | Dir es =>
      match p with
      | [] => Some n
      | c :: p' =>
          m ← makedirs (default empty_dir (es !! c)) p';
          Some (Dir (<[c := m]> es))
      end
  end.

(** Writes the tree [new] at [p], creating the missing ancestors. *)
Fixpoint put (n : node) (p : path) (new : node) : option node :=
  match p with
  | [] => Some new
  | c :: p' =>
      match n with
      | File => None
      | Dir es =>
          m ← put (default empty_dir (es !! c)) p' new;
          Some (Dir (<[c := m]> es))
      end
  end.

(** The entries of the directory at [p]; none when [p] is absent or a file. *)
Definition dir_entries (fs : node) (p : path) : gmap string node :=
  match lookup fs p with
  | Some (Dir es) => es
  | _ => ∅
  end.

End FS.

(** Modelled from the spec: [tlt.utils.file_utils.verify_directory], which
    [export] and [load_from_directory] call, is missing.  Their docstrings
    and section 4.1 give its failures (a path that is a file raises
    [FileExistsError]; a required directory that is missing raises
    [NotADirectoryError]); otherwise the directory is created when absent. *)
Definition verify_directory (fs : FS.node) (directory_path : FS.path)
    (require_directory_exists : bool) : result FS.node :=
  match FS.lookup fs directory_path with
  | Some FS.File =>
      Raise (Exn FileExistsError "Unable to find the directory because it is a file")
  | Some (FS.Dir _) => Ok fs
  | None =>
      if require_directory_exists
      then Raise (Exn NotADirectoryError "The directory does not exist")
      else match FS.makedirs fs directory_path with
           | Some fs' => Ok fs'
           | None => Raise (Exn NotADirectoryError "Not a directory")
           end
  end.

(** ["{}".format(n)] for a natural number: its decimal numeral *)
Definition str_of_nat (n : nat) : string :=
  NilEmpty.string_of_uint (Nat.to_uint n).

(** ** [TFModel.export] *)

Module TFExport.

(** The Keras model object behind [self._model] is opaque here. *)
Record keras_model := KerasModel { weights : nat }.

Record TFModel := {
  model_name : string;
  _model : option keras_model;
}.

(** What [self._model.save(dir)] leaves in a new directory: the directory
    of a SavedModel. *)
Definition saved_model_tree : FS.node :=
  FS.Dir (<["saved_model.pb" := FS.File]>
         (<["variables" := FS.empty_dir]>
         (<["assets" := FS.empty_dir]> ∅))).

(** The SavedModel written into a directory that holds [es]:
    [saved_model.pb] is written, over a file of that name when there is
    one; [variables] and [assets] are created unless they are there; every
    other entry stays.  The save fails when an entry of the other kind is
    in the way: a directory [saved_model.pb], a file [variables] or
    [assets]. *)
Definition save_into (es : gmap string FS.node) : option (gmap string FS.node) :=
  match es !! "saved_model.pb", es !! "variables", es !! "assets" with
  | Some (FS.Dir _), _, _ => None
  | _, Some FS.File, _ => None
  | _, _, Some FS.File => None
  | _, v, a =>
      Some (<["saved_model.pb" := FS.File]>
           (<["variables" := default FS.empty_dir v]>
           (<["assets" := default FS.empty_dir a]> es)))
  end.

(** The failure of a save is an exception of TensorFlow's own. *)
Definition save_failed : exn := Exn LibraryError "Unable to save the model".

(** [self._model.save(saved_model_dir)]: the directory is created with its
    missing ancestors and the SavedModel is written into it; a regular file
    at that path, or on the way to it, makes the save fail. *)
Definition model_save (fs : FS.node) (saved_model_dir : FS.path) : result FS.node :=
  match FS.lookup fs saved_model_dir with
  | Some FS.File => Raise save_failed
  | _ =>
      match save_into (FS.dir_entries fs saved_model_dir) with
      | Some es =>
          match FS.put fs saved_model_dir (FS.Dir es) with
          | Some fs' => Ok fs'
          | None => Raise save_failed
          end
      | None => Raise save_failed
      end
  end.

(** A SavedModel is at [p]: its [saved_model.pb] file and its [variables]
    and [assets] directories. *)
Definition holds_saved_model (fs : FS.node) (p : FS.path) : Prop :=
  FS.isfile fs (p ++ ["saved_model.pb"]) = true ∧
  FS.isdir fs (p ++ ["variables"]) = true ∧
  FS.isdir fs (p ++ ["assets"]) = true.

(** The numbered directory [export] picks (the [if]/[else] on the listing of
    the model's directory): [os.listdir] is evaluated once for the test and
    once more for the number. *)
Definition numbered_dir (fs : FS.node) (saved_model_dir : FS.path) : result FS.path :=
  if FS.exists_ fs saved_model_dir
  then
    l ← FS.listdir fs saved_model_dir;
    if negb (length l =? 0)%nat
    then
      l' ← FS.listdir fs saved_model_dir;
      mret (saved_model_dir ++ [str_of_nat (length l' + 1)])
    else mret (saved_model_dir ++ ["1"])
  else mret (saved_model_dir ++ ["1"]).

Section WithNames.

(** [tlt.utils.file_utils.validate_model_name] is defined elsewhere; it is a
    parameter here, and its result is used as one path component. *)
Variable validate_model_name : string → string.

Definition export (self : TFModel) (fs : FS.node) (output_dir : FS.path)
    : result (FS.path * FS.node) :=
  match _model self with
  | Some _ =>
      fs1 ← verify_directory fs output_dir false;
      let val_model_name := validate_model_name (model_name self) in
      let saved_model_dir := output_dir ++ [val_model_name] in
      saved_model_dir ← numbered_dir fs1 saved_model_dir;
      fs2 ← model_save fs1 saved_model_dir;
      mret (saved_model_dir, fs2)
  | None =>
      Raise (Exn ValueError
        "Unable to export the model, because it hasn't been loaded or trained yet")
  end.

(** The directory the numbered versions go to:
    [os.path.join(output_dir, val_model_name)]. *)
Definition saved_root (self : TFModel) (output_dir : FS.path) : FS.path :=
  output_dir ++ [validate_model_name (model_name self)].

(** [n] successive calls of [export] on the same output directory: the
    returned paths in call order and the final file system; the first failure
    ends the sequence. *)
Fixpoint export_n (self : TFModel) (fs : FS.node) (output_dir : FS.path) (n : nat)
    : result (list FS.path * FS.node) :=
  match n with
  | O => mret ([], fs)
  | S k =>
      '(p, fs1) ← export self fs output_dir;
      '(ps, fs2) ← export_n self fs1 output_dir k;
      mret (p :: ps, fs2)
  end.

End WithNames.

(** A numbered subdirectory: a directory whose name is a decimal numeral. *)
Definition is_digit (c : ascii) : bool :=
  (48 <=? nat_of_ascii c)%nat && (nat_of_ascii c <=? 57)%nat.

Definition is_numeral (s : string) : bool :=
  negb (String.eqb s "") && forallb is_digit (list_ascii_of_string s).

Definition is_numbered_subdir (e : string * FS.node) : bool :=
  match e.2 with
  | FS.Dir _ => is_numeral e.1
  | FS.File => false
  end.

Definition count_numbered_subdirs (fs : FS.node) (p : FS.path) : nat :=
  length (filter (λ e, is_numbered_subdir e = true) (map_to_list (FS.dir_entries fs p))).

(** Sample handles and file systems. *)
Definition resnet : TFModel :=
  {| model_name := "resnet_v1_50"; _model := Some (KerasModel 0) |}.

Definition untrained : TFModel :=
  {| model_name := "resnet_v1_50"; _model := None |}.

Definition fs_empty_out : FS.node := FS.Dir {["out" := FS.empty_dir]}.

Definition fs_with_notes : FS.node :=
  FS.Dir {["out" := FS.Dir {["resnet_v1_50" := FS.Dir {["notes.txt" := FS.File]}]}]}.

Definition fs_with_checkpoints : FS.node :=
  FS.Dir {["out" := FS.Dir {["resnet_v1_50" := FS.Dir {["checkpoints" := FS.empty_dir]}]}]}.

(** The model's directory holds one regular file, named [2]. *)
Definition fs_with_file_2 : FS.node :=
  FS.Dir {["out" := FS.Dir {["resnet_v1_50" := FS.Dir {["2" := FS.File]}]}]}.

(** The names ["1"], ..., ["k"]. *)
Definition version_names (k : nat) : gset string :=
  list_to_set (map str_of_nat (seq 1 k)).

(** The entries of the directory [d] are exactly the versions [1..k]. *)
Definition versions_upto (fs : FS.node) (d : FS.path) (k : nat) : Prop :=
  dom (FS.dir_entries fs d) = version_names k ∧ size (FS.dir_entries fs d) = k.

End TFExport.

(** ** Python strings

    A [str] is modelled as its list of characters, over 8-bit code points
    (U+0000 to U+00FF); on these, [\d] and [[0-9]] denote the same set. *)

Module Py.

Definition str := list ascii.

Definition of_string (s : string) : str := list_ascii_of_string s.
Definition to_string (s : str) : string := string_of_list_ascii s.

Definition code (c : ascii) : nat := nat_of_ascii c.

Definition in_range (lo hi c : ascii) : bool :=
  (code lo <=? code c)%nat && (code c <=? code hi)%nat.

Definition is_digit (c : ascii) : bool := in_range "0" "9" c.

(** [str.isspace] on one character: TAB to CR, FS to US, space, NEL, NBSP *)
Definition is_space (c : ascii) : bool :=
  ((9 <=? code c) && (code c <=? 13) || (28 <=? code c) && (code c <=? 32)
   || (code c =? 133) || (code c =? 160))%nat.

Fixpoint lstrip (s : str) : str :=
  match s with
  | c :: s' => if is_space c then lstrip s' else s
  | [] => []
  end.

Definition rstrip (s : str) : str := rev (lstrip (rev s)).

Definition strip (s : str) : str := rstrip (lstrip s).

Fixpoint starts_with (pre s : str) : bool :=
  match pre, s with
  | [], _ => true
  | a :: pre', b :: s' => Ascii.eqb a b && starts_with pre' s'
  | _ :: _, [] => false
  end.

(** [sep in s] *)
Fixpoint contains (sep s : str) : bool :=
  starts_with sep s ||
  match s with
  | [] => false
  | _ :: s' => contains sep s'
  end.

(** [s.split(sep)] for a non-empty [sep]: the pieces between the
    occurrences of [sep], found left to right without overlap.  [skip]
    counts the characters of the occurrence being passed over and [cur]
    holds the current piece, reversed. *)
Fixpoint split_go (sep : str) (skip : nat) (cur : str) (s : str) : list str :=
  match s with
  | [] => [rev cur]
  | c :: s' =>
      match skip with
      | S k => split_go sep k cur s'
      | O =>
          if starts_with sep s
          then rev cur :: split_go sep (length sep - 1) [] s'
          else split_go sep 0 (c :: cur) s'
      end
  end.

Definition split (sep s : str) : list str := split_go sep 0 [] s.

(** [l[i]] *)
Definition index {A} (l : list A) (i : nat) : result A :=
  match l !! i with
  | Some x => Ok x
  | None => Raise (Exn IndexError "list index out of range")
  end.

(** The white space [int] skips around a number: TAB to CR, the space, NEL
    and NBSP.  Unlike [str.strip], it does not skip FS to US. *)
Definition is_int_space (c : ascii) : bool :=
  ((9 <=? code c) && (code c <=? 13) || (code c =? 32)
   || (code c =? 133) || (code c =? 160))%nat.

Fixpoint skip_int_space (s : str) : str :=
  match s with
  | c :: s' => if is_int_space c then skip_int_space s' else s
  | [] => []
  end.

Definition int_strip (s : str) : str :=
  rev (skip_int_space (rev (skip_int_space s))).

(** [int(s)] in base 10: surrounding white space, an optional sign, then
    digits, where single underscores may separate digits. *)
Definition digit_value (c : ascii) : Z := Z.of_nat (code c) - 48.

Fixpoint int_digits (acc : Z) (after_digit : bool) (s : str) : option Z :=
  match s with
  | [] => if after_digit then Some acc else None
  | c :: s' =>
      if is_digit c then int_digits (10 * acc + digit_value c) true s'
      else if Ascii.eqb c "_" then
        if after_digit then int_digits acc false s' else None
      else None
  end.

Definition int (s : str) : result Z :=
  let t := int_strip s in
  let r :=
    match t with
    | c :: t' =>
        if Ascii.eqb c "+" then int_digits 0 false t'
        else if Ascii.eqb c "-" then Z.opp <$> int_digits 0 false t'
        else int_digits 0 false t
    | [] => None
    end in
  match r with
  | Some z => Ok z
  | None => Raise (Exn ValueError "invalid literal for int() with base 10")
  end.

End Py.

(** ** [TFModel.set_auto_mixed_precision] *)

Module AMP.

(** The argument: [None], a [bool], or a value of another type. *)
Inductive amp_arg :=
  | ArgNone
  | ArgBool (b : bool)
  | ArgOther.

(** What [PlatformUtil(args=None).cpu_type] does: it gives a CPU type, or
    raises an [Exception] whose [str] is [e]. *)
Inductive detection :=
  | Detected (cpu_type : string)
  | DetectionFailed (e : string).

(** The lines printed so far and the graph-optimizer option
    ['auto_mixed_precision_mkl'] (unset until [set_experimental_options]). *)
Record tf_state := {
  stdout : list string;
  auto_mixed_precision_mkl : option bool;
}.

Definition print (line : string) (st : tf_state) : tf_state :=
  {| stdout := stdout st ++ [line];
     auto_mixed_precision_mkl := auto_mixed_precision_mkl st |}.

Definition set_experimental_options (b : bool) (st : tf_state) : tf_state :=
  {| stdout := stdout st; auto_mixed_precision_mkl := Some b |}.

(** ["{}".format(tf.version.VERSION)] *)
Definition format_version (VERSION : option string) : string :=
  match VERSION with
  | Some v => v
  | None => "None"
  end.

(** "Get the TF version": major and minor numbers, [0] and [0] by default. *)
Definition tf_version (VERSION : option string) : result (Z * Z) :=
  match VERSION with
  | Some v =>
      if Py.contains (Py.of_string ".") (Py.of_string v)
      then
        let tf_version_list := Py.split (Py.of_string ".") (Py.of_string v) in
        if (1 <? length tf_version_list)%nat
        then
          major_s ← Py.index tf_version_list 0;
          tf_major_version ← Py.int major_s;
          minor_s ← Py.index tf_version_list 1;
          tf_minor_version ← Py.int minor_s;
          mret (tf_major_version, tf_minor_version)
        else mret (0, 0)%Z
      else mret (0, 0)%Z
  | None => mret (0, 0)%Z
  end.

Definition supported (v : Z * Z) : bool :=
  ((v.1 =? 2) && (9 <=? v.2) || (2 <? v.1))%Z.

Definition set_auto_mixed_precision (VERSION : option string) (cpu : detection)
    (enable_auto_mixed_precision : amp_arg) (st : tf_state) : result tf_state :=
  match enable_auto_mixed_precision with
  | ArgOther =>
      Raise (Exn TypeError
        "Invalid type for enable_auto_mixed_precision. Expected None or a bool.")
  | _ =>
      v ← tf_version VERSION;
      let auto_mixed_precision_supported := supported v in
      let '(enable, st1) :=
        match enable_auto_mixed_precision with
        | ArgBool b =>
            (b, if negb auto_mixed_precision_supported
                then print ("Warning: Auto mixed precision requires TensorFlow 2.9.0 or later (found "
                            +:+ format_version VERSION +:+ ").") st
                else st)
        | _ =>
            match cpu with
            | Detected cpu_type => (String.eqb cpu_type "SPR", st)
            | DetectionFailed e =>
                (false, if auto_mixed_precision_supported
                        then print ("Unable to determine the CPU type: " +:+ e) st
                        else st)
            end
        end in
      if auto_mixed_precision_supported
      then
        let st2 := if enable then print "Enabling auto_mixed_precision_mkl" st1 else st1 in
        mret (set_experimental_options enable st2)
      else mret st1
  end.

(** [PlatformUtil(args=None).cpu_type == 'SPR'], false when detection fails *)
Definition is_spr (cpu : detection) : bool :=
  match cpu with
  | Detected cpu_type => String.eqb cpu_type "SPR"
  | DetectionFailed _ => false
  end.

Definition initial : tf_state := {| stdout := []; auto_mixed_precision_mkl := None |}.

(** Auto mode on TensorFlow 2.8.0 with a failing platform detection *)
Definition auto_on_2_8_undetected : result tf_state :=
  set_auto_mixed_precision (Some "2.8.0") (DetectionFailed "lscpu not found")
    ArgNone initial.

End AMP.

(** ** Regular expressions

    The fragment of Python's [re] syntax the hostfile patterns use.  A
    pattern anchored with [^] and [$] is matched by [re.match] on a string
    without a final newline exactly when the whole string belongs to its
    language; [matches] decides that with Brzozowski derivatives. *)

Module Regex.

Inductive re :=
  | Void
  | Eps
  | Lit (c : ascii)
  | Class (ranges : list (ascii * ascii))
  | Cat (r1 r2 : re)
  | Alt (r1 r2 : re)
  | Star (r : re).

(** [r?], [r{n}], [r{1,2}] and a literal string *)
Definition Opt (r : re) : re := Alt r Eps.

Fixpoint Rep (n : nat) (r : re) : re :=
  match n with
  | O => Eps
  | S k => Cat r (Rep k r)
  end.

Definition Rep_1_2 (r : re) : re := Cat r (Opt r).

Fixpoint Str (s : Py.str) : re :=
  match s with
  | [] => Eps
  | c :: s' => Cat (Lit c) (Str s')
  end.

Definition in_class (ranges : list (ascii * ascii)) (c : ascii) : bool :=
  existsb (λ r, Py.in_range r.1 r.2 c) ranges.

Fixpoint nullable (r : re) : bool :=
  match r with
  | Void => false
  | Eps => true
  | Lit _ => false
  | Class _ => false
  | Cat r1 r2 => nullable r1 && nullable r2
  | Alt r1 r2 => nullable r1 || nullable r2
  | Star _ => true
  end.

Fixpoint deriv (c : ascii) (r : re) : re :=
  match r with
  | Void => Void
  | Eps => Void
  | Lit c' => if Ascii.eqb c c' then Eps else Void
  | Class ranges => if in_class ranges c then Eps else Void
  | Cat r1 r2 =>
      if nullable r1
      then Alt (Cat (deriv c r1) r2) (deriv c r2)
      else Cat (deriv c r1) r2
  | Alt r1 r2 => Alt (deriv c r1) (deriv c r2)
  | Star r1 => Cat (deriv c r1) (Star r1)
  end.

Fixpoint matches (r : re) (s : Py.str) : bool :=
  match s with
  | [] => nullable r
  | c :: s' => matches (deriv c r) s'
  end.

(** The language of a pattern *)
Inductive Matches : re → Py.str → Prop :=
  | M_Eps : Matches Eps []
  | M_Lit c : Matches (Lit c) [c]
  | M_Class ranges c : in_class ranges c = true → Matches (Class ranges) [c]
  | M_Cat r1 r2 s1 s2 : Matches r1 s1 → Matches r2 s2 → Matches (Cat r1 r2) (s1 ++ s2)
  | M_Alt_l r1 r2 s : Matches r1 s → Matches (Alt r1 r2) s
  | M_Alt_r r1 r2 s : Matches r2 s → Matches (Alt r1 r2) s
  | M_Star_nil r : Matches (Star r) []
  | M_Star_app r s1 s2 : Matches r s1 → Matches (Star r) s2 → Matches (Star r) (s1 ++ s2).

(** The characters a pattern can consume *)
Fixpoint may_contain (r : re) (c : ascii) : bool :=
  match r with
  | Void | Eps => false
  | Lit c' => Ascii.eqb c c'
  | Class ranges => in_class ranges c
  | Cat r1 r2 | Alt r1 r2 => may_contain r1 c || may_contain r2 c
  | Star r1 => may_contain r1 c
  end.

End Regex.

(** ** [TFModel._parse_hostfile] *)

Module Hostfile.

Import Regex.

Definition lit (s : string) : re := Str (Py.of_string s).

Definition d09 : re := Class [("0", "9")]%char.

(** [(25[0-5]|2[0-4][0-9]|1[0-9][0-9]|[1-9]?[0-9])] *)
Definition octet : re :=
  Alt (Cat (lit "25") (Class [("0", "5")]%char))
 (Alt (Cat (lit "2") (Cat (Class [("0", "4")]%char) d09))
 (Alt (Cat (lit "1") (Cat d09 d09))
      (Cat (Opt (Class [("1", "9")]%char)) d09))).

(** [(octet\.){3}octet] *)
Definition ip : re := Cat (Rep 3 (Cat octet (lit "."))) octet.

Definition alnum : re := Class [("a", "z"); ("A", "Z"); ("0", "9")]%char.
Definition alnum_dash : re := Class [("a", "z"); ("A", "Z"); ("0", "9"); ("-", "-")]%char.

(** [([a-zA-Z0-9]|[a-zA-Z0-9][a-zA-Z0-9\-]*[a-zA-Z0-9])] *)
Definition label : re := Alt alnum (Cat alnum (Cat (Star alnum_dash) alnum)).

(** [(label\.)*label] *)
Definition hostname : re := Cat (Star (Cat label (lit "."))) label.

(** [ slots=[0-9]{1,2}] and [:\d{1,2}] *)
Definition slots_suffix : re := Cat (lit " slots=") (Rep_1_2 d09).
Definition colon_suffix : re := Cat (lit ":") (Rep_1_2 d09).

Inductive kind :=
  | valid_ip
  | valid_ip_with_slot
  | valid_ip_with_colon
  | valid_hostname
  | valid_hostname_with_slot
  | valid_hostname_with_colon.

(** The dictionary [valid_regexes], in insertion order *)
Definition valid_regexes : list (kind * re) :=
  [ (valid_ip, ip);
    (valid_ip_with_slot, Cat ip slots_suffix);
    (valid_ip_with_colon, Cat ip colon_suffix);
    (valid_hostname, hostname);
    (valid_hostname_with_slot, Cat hostname slots_suffix);
    (valid_hostname_with_colon, Cat hostname colon_suffix) ].

(** The inner loop: the first pattern, in dictionary order, that matches *)
Fixpoint first_match (regexes : list (kind * re)) (line : Py.str) : option kind :=
  match regexes with
  | [] => None
  | (k, v) :: rest => if matches v line then Some k else first_match rest line
  end.

(** The first loop: one pattern name per line, or the [ValueError] of the
    first line no pattern matches *)
Fixpoint match_lines (lines : list Py.str) : result (list kind) :=
  match lines with
  | [] => mret []
  | line :: rest =>
      match first_match valid_regexes line with
      | Some k => ks ← match_lines rest; mret (k :: ks)
      | None =>
          Raise (Exn ValueError
            ("Invalid line in the hostfile: " +:+ Py.to_string line))
      end
  end.

(** A slot value: the integer [0], or the text cut out of the line *)
Inductive slot :=
  | SlotInt (n : Z)
  | SlotStr (s : Py.str).

Record hostfile_info := {
  ip_addresses : list Py.str;
  slots : list slot;
}.

Definition slots_sep : Py.str := Py.of_string " slots=".
Definition colon_sep : Py.str := Py.of_string ":".

Section WithResolver.

(** [socket.gethostbyname]: an external lookup that may raise *)
Variable gethostbyname : Py.str → result Py.str.

(** The body of the second loop for one line: what is appended to
    ['ip_addresses'] and to ['slots'] *)
Definition append_line (line : Py.str) (k : kind) (info : hostfile_info)
    : result hostfile_info :=
  match k with
  | valid_ip =>
      mret {| ip_addresses := ip_addresses info ++ [line];
              slots := slots info ++ [SlotInt 0] |}
  | valid_ip_with_slot =>
      a ← Py.index (Py.split slots_sep line) 0;
      s ← Py.index (Py.split slots_sep line) 1;
      mret {| ip_addresses := ip_addresses info ++ [a];
              slots := slots info ++ [SlotStr s] |}
  | valid_ip_with_colon =>
      a ← Py.index (Py.split colon_sep line) 0;
      s ← Py.index (Py.split colon_sep line) 1;
      mret {| ip_addresses := ip_addresses info ++ [a];
              slots := slots info ++ [SlotStr s] |}
  | valid_hostname =>
      a ← gethostbyname line;
      mret {| ip_addresses := ip_addresses info ++ [a];
              slots := slots info ++ [SlotInt 0] |}
  | valid_hostname_with_slot =>
      h ← Py.index (Py.split slots_sep line) 0;
      a ← gethostbyname h;
      s ← Py.index (Py.split slots_sep line) 1;
      mret {| ip_addresses := ip_addresses info ++ [a];
              slots := slots info ++ [SlotStr s] |}
  | valid_hostname_with_colon =>
      h ← Py.index (Py.split colon_sep line) 0;
      a ← gethostbyname h;
      s ← Py.index (Py.split colon_sep line) 1;
      mret {| ip_addresses := ip_addresses info ++ [a];
              slots := slots info ++ [SlotStr s] |}
  end.

(** The second loop, over [zip(lines, matches)] *)
Fixpoint fill (pairs : list (Py.str * kind)) (info : hostfile_info)
    : result hostfile_info :=
  match pairs with
  | [] => mret info
  | (line, k) :: rest => info' ← append_line line k info; fill rest info'
  end.

(** [_parse_hostfile], given the lines read from the file *)
Definition _parse_hostfile (file_lines : list Py.str) : result hostfile_info :=
  let lines := map Py.rstrip file_lines in
  matches ← match_lines lines;
  fill (zip lines matches) {| ip_addresses := []; slots := [] |}.

End WithResolver.

(** A line some pattern matches *)
Definition accepted (line : Py.str) : Prop :=
  is_Some (first_match valid_regexes line).

(** One or two decimal digits *)
Definition slot_digits (d : Py.str) : Prop :=
  (1 ≤ length d ≤ 2)%nat ∧ Forall (λ c, Py.is_digit c = true) d.

(** The six line forms and the address and slot value each one stands for *)
Inductive normalized (gethostbyname : Py.str → result Py.str)
    : Py.str → Py.str → slot → Prop :=
  | norm_ip a :
      Matches ip a →
      normalized gethostbyname a a (SlotInt 0)
  | norm_ip_slot a d :
      Matches ip a → slot_digits d →
      normalized gethostbyname (a ++ slots_sep ++ d) a (SlotStr d)
  | norm_ip_colon a d :
      Matches ip a → slot_digits d →
      normalized gethostbyname (a ++ colon_sep ++ d) a (SlotStr d)
  | norm_host h a :
      ¬ Matches ip h → Matches hostname h → gethostbyname h = Ok a →
      normalized gethostbyname h a (SlotInt 0)
  | norm_host_slot h d a :
      ¬ Matches ip h → Matches hostname h → slot_digits d →
      gethostbyname h = Ok a →
      normalized gethostbyname (h ++ slots_sep ++ d) a (SlotStr d)
  | norm_host_colon h d a :
      ¬ Matches ip h → Matches hostname h → slot_digits d →
      gethostbyname h = Ok a →
      normalized gethostbyname (h ++ colon_sep ++ d) a (SlotStr d).

(** A line outside the language of every pattern *)
Definition matches_none (line : Py.str) : Prop :=
  Forall (λ kv : kind * re, ¬ Matches kv.2 line) valid_regexes.

(** The host name [h] a line gives to the resolver: the line itself or its
    part before the slots, when that part is a host name and not an address *)
Definition names_host (line h : Py.str) : Prop :=
  ¬ Matches ip h ∧ Matches hostname h ∧
  (line = h ∨
   ∃ d, slot_digits d ∧ (line = h ++ slots_sep ++ d ∨ line = h ++ colon_sep ++ d)).

(** A failure that comes from resolving the host name of one of the lines *)
Definition resolver_raises (gethostbyname : Py.str → result Py.str)
    (lines : list Py.str) (e : exn) : Prop :=
  ∃ line h, line ∈ lines ∧ names_host line h ∧ gethostbyname h = Raise e.

(** A resolver that knows one host, and one that knows none. *)
Definition unknown_host : exn := Exn OSError "[Errno -2] Name or service not known".

Definition no_dns (h : Py.str) : result Py.str := Raise unknown_host.

Definition example_dns (h : Py.str) : result Py.str :=
  if String.eqb (Py.to_string h) "hostname-example.com"
  then Ok (Py.of_string "93.184.216.34")
  else Raise unknown_host.

(** Sample hostfiles *)
Definition six_forms : list Py.str :=
  map Py.of_string
    [ "127.0.0.1"; "127.0.0.1 slots=2"; "127.0.0.1:2";
      "hostname-example.com"; "hostname-example.com slots=2";
      "hostname-example.com:2" ].

Definition one_ip_with_slots : list Py.str :=
  [Py.of_string "127.0.0.1 slots=2"].

Definition one_hostname : list Py.str :=
  [Py.of_string "hostname-example.com"].

Definition newline : Py.str := ["010"%char].

End Hostfile.

(** ** The quantization workflow

    The command [tlt.tools.cli.commands.quantize] is exercised by
    [tests/tools/cli/test_quantize_cli.py]; its own module is missing, so the
    definitions here follow the specification (sections 3, 4.1, 4.3, 6 and
    7) and the names the tests use. *)

Module Quantize.

Inductive FrameworkType := TENSORFLOW | PYTORCH.

Inductive UseCaseType := IMAGE_CLASSIFICATION | TEXT_CLASSIFICATION.

(** The text given for a numeric option: an integer numeral, another
    number, or something that is not a number. *)
Inductive flag_value :=
  | FlagInt (z : Z)
  | FlagReal (q : Q)
  | FlagText (s : string).

Definition as_int (v : flag_value) : option Z :=
  match v with
  | FlagInt z => Some z
  | _ => None
  end.

Definition as_float (v : flag_value) : option Q :=
  match v with
  | FlagInt z => Some (inject_Z z)
  | FlagReal q => Some q
  | FlagText _ => None
  end.

(** The command line; an omitted option is [None] and takes its default. *)
Record cli_args := {
  model_dir : FS.path;
  dataset_dir : FS.path;
  output_dir : FS.path;
  inc_config : option FS.path;
  batch_size : option flag_value;
  max_trials : option flag_value;
  timeout : option flag_value;
  accuracy_criterion : option flag_value;
}.

(** The validated tuning parameters *)
Record tuning := {
  t_batch_size : option Z;
  t_max_trials : option Z;
  t_timeout : option Z;
  t_accuracy_criterion : option Q;
}.

Definition usage_error (option_name : string) : exn :=
  Exn UsageError ("Invalid value for '" +:+ option_name +:+ "'").

(** Modelled from the spec: section 6 gives the ranges, [INT>0] or [INT≥0];
    a text that is not an integer, or an integer below the bound, is a
    validation error. *)
Definition check_int (option_name : string) (lowest : Z) (v : option flag_value)
    : result (option Z) :=
  match v with
  | None => Ok None
  | Some f =>
      match as_int f with
      | Some z => if (lowest <=? z)%Z then Ok (Some z) else Raise (usage_error option_name)
      | None => Raise (usage_error option_name)
      end
  end.

(** Modelled from the spec: [--accuracy-criterion FLOAT in [0,1]]. *)
Definition check_unit_interval (option_name : string) (v : option flag_value)
    : result (option Q) :=
  match v with
  | None => Ok None
  | Some f =>
      match as_float f with
      | Some q =>
          if Qle_bool 0 q && Qle_bool q 1 then Ok (Some q)
          else Raise (usage_error option_name)
      | None => Raise (usage_error option_name)
      end
  end.

(** Modelled from the spec: a directory option must name an existing
    directory (section 6, exit code 2 for a missing directory). *)
Definition check_directory (option_name : string) (fs : FS.node) (p : FS.path)
    : result unit :=
  if FS.isdir fs p then Ok tt
  else Raise (Exn UsageError ("Invalid value for '" +:+ option_name
                              +:+ "': Directory does not exist"))%string.

(** Modelled from the spec: argument validation, section 7, done before any
    model or dataset work. *)
Definition validate (fs : FS.node) (args : cli_args) : result tuning :=
  _ ← check_directory "--model-dir" fs (model_dir args);
  _ ← check_directory "--dataset-dir" fs (dataset_dir args);
  b ← check_int "--batch-size" 1 (batch_size args);
  a ← check_unit_interval "--accuracy-criterion" (accuracy_criterion args);
  t ← check_int "--timeout" 0 (timeout args);
  m ← check_int "--max-trials" 1 (max_trials args);
  mret {| t_batch_size := b; t_max_trials := m; t_timeout := t;
          t_accuracy_criterion := a |}.

Definition unsupported_model_file : string :=
  "Quantization is currently only implemented for TensorFlow saved_model.pb and PyTorch model.pt models.".

(** Modelled from the spec: section 4.3 step 1, the framework from the
    artifact found in the model directory.  The spec does not say what two
    artifacts together mean; [saved_model.pb], named first, is looked for
    first. *)
Definition detect_framework (fs : FS.node) (model_dir : FS.path) : result FrameworkType :=
  if FS.isfile fs (model_dir ++ ["saved_model.pb"]) then Ok TENSORFLOW
  else if FS.isfile fs (model_dir ++ ["model.pt"]) then Ok PYTORCH
  else Raise (Exn ValueError unsupported_model_file).

(** Modelled from the spec: section 4.3 step 1, the candidate model name is
    the leaf name of the model directory, "its own name, not a numeric
    version suffix": under a numeric leaf it is the name of the parent. *)
Definition candidate_name (model_dir : FS.path) : string :=
  match rev model_dir with
  | leaf :: parent :: _ => if TFExport.is_numeral leaf then parent else leaf
  | [leaf] => leaf
  | [] => ""
  end.

Record DatasetHandle := {
  ds_dir : FS.path;
  ds_use_case : UseCaseType;
  ds_framework : FrameworkType;
}.

(** The part of the model contract ([BaseModel]) the workflow calls *)
Record ModelHandle := {
  use_case : UseCaseType;
  framework : FrameworkType;
  write_inc_config_file :
    FS.node → FS.path → DatasetHandle → tuning → bool → result FS.node;
  quantize : FS.node → FS.path → FS.path → FS.path → result FS.node;
}.

(** Modelled from the spec: the contract of [write_inc_config_file] as its
    docstring in [BaseModel] and section 4.1 give it: [FileExistsError] when
    the file exists and [overwrite] is false, [NotImplementedError] when
    the model or dataset does not support it, [ValueError] for parameters
    out of range; otherwise the file is written. *)
Definition write_inc_config_file_contract (supported params_ok : bool)
    (fs : FS.node) (config_file_path : FS.path) (overwrite : bool) : result FS.node :=
  if FS.exists_ fs config_file_path && negb overwrite
  then Raise (Exn FileExistsError "A file already exists at the config file path")
  else if negb supported
  then Raise (Exn NotImplementedError "Writing a config file is not supported")
  else if negb params_ok
  then Raise (Exn ValueError "Invalid parameter")
  else match FS.put fs config_file_path FS.File with
       | Some fs' => Ok fs'
       | None => Raise (Exn NotADirectoryError "Not a directory")
       end.

(** The calls made on the collaborators *)
Inductive call :=
  | GetModel (model_name : string) (fw : FrameworkType)
  | LoadDataset (dir : FS.path) (uc : UseCaseType) (fw : FrameworkType)
  | WriteIncConfigFile (config_file_path : FS.path) (overwrite : bool)
  | QuantizeModel (saved_model_dir output_dir inc_config_path : FS.path).

Definition is_get_model (c : call) : bool :=
  match c with GetModel _ _ => true | _ => false end.

Definition is_write_config (c : call) : bool :=
  match c with WriteIncConfigFile _ _ => true | _ => false end.

Definition count (p : call → bool) (calls : list call) : nat :=
  length (List.filter p calls).

(** What one invocation leaves: exit code, printed lines, the calls in
    order, the file system. *)
Record outcome := {
  exit_code : Z;
  output : list string;
  calls : list call;
  fs_after : FS.node;
}.

(** Modelled from the spec: section 3, the next versioned directory under
    [root] is numbered 1 + the count of numbered subdirectories. *)
Definition next_version_dir (fs : FS.node) (root : FS.path) : FS.path :=
  root ++ [str_of_nat (1 + TFExport.count_numbered_subdirs fs root)].

Definition show_path (p : FS.path) : string :=
  String.concat "/" p.

Section WithFactories.

(** The model factory and the dataset factory (section 6) *)
Variable get_model : string → FrameworkType → result ModelHandle.
Variable load_dataset : FS.path → UseCaseType → FrameworkType → result DatasetHandle.

(** Modelled from the spec: step 4 of section 4.3 and the exit of step 5. *)
Definition run_quantize (args : cli_args) (model : ModelHandle) (fs : FS.node)
    (dest config : FS.path) (done : list call) : outcome :=
  let done' := done ++ [QuantizeModel (model_dir args) dest config] in
  match quantize model fs (model_dir args) dest config with
  | Ok fs' =>
      {| exit_code := 0; output := [show_path dest]; calls := done'; fs_after := fs' |}
  | Raise e =>
      {| exit_code := 1; output := [exn_msg e]; calls := done'; fs_after := fs |}
  end.

(** Modelled from the spec: the state machine of section 4.3 over one
    invocation, behind the argument validation of section 7. *)
Definition quantize_command (args : cli_args) (fs : FS.node) : outcome :=
  match validate fs args with
  | Raise e => {| exit_code := 2; output := [exn_msg e]; calls := []; fs_after := fs |}
  | Ok params =>
  match detect_framework fs (model_dir args) with
  | Raise e => {| exit_code := 1; output := [exn_msg e]; calls := []; fs_after := fs |}
  | Ok fw =>
  let model_name := candidate_name (model_dir args) in
  let calls1 := [GetModel model_name fw] in
  match get_model model_name fw with
  | Raise e =>
      {| exit_code := 1;
         output := ["An error occurred while getting the model: " +:+ exn_msg e];
         calls := calls1; fs_after := fs |}
  | Ok model =>
  let calls2 :=
    calls1 ++ [LoadDataset (dataset_dir args) (use_case model) (framework model)] in
  match load_dataset (dataset_dir args) (use_case model) (framework model) with
  | Raise e =>
      {| exit_code := 1; output := [exn_msg e]; calls := calls2; fs_after := fs |}
  | Ok dataset =>
  let dest := next_version_dir fs (output_dir args ++ ["quantized"; model_name]) in
  match inc_config args with
  | Some config => run_quantize args model fs dest config calls2
  | None =>
      let config := dest ++ ["inc_config.yaml"] in
      let calls3 := calls2 ++ [WriteIncConfigFile config false] in
      match write_inc_config_file model fs config dataset params false with
      | Raise e =>
          {| exit_code := 1; output := [exn_msg e]; calls := calls3; fs_after := fs |}
      | Ok fs1 => run_quantize args model fs1 dest config calls3
      end
  end end end end end.

(** The invocation gets as far as resolving the configuration: the
    arguments are valid, the model is identified, and both factories answer. *)
Definition acquires (args : cli_args) (fs : FS.node) : Prop :=
  ∃ params fw model dataset,
    validate fs args = Ok params ∧
    detect_framework fs (model_dir args) = Ok fw ∧
    get_model (candidate_name (model_dir args)) fw = Ok model ∧
    load_dataset (dataset_dir args) (use_case model) (framework model) = Ok dataset.

End WithFactories.

(** Values an option rejects: for an integer option with lower bound
    [lowest], whatever is not an integer at least [lowest]; for the accuracy
    criterion, whatever is not a number of [0,1]. *)
Definition rejected_int (lowest : Z) (v : flag_value) : Prop :=
  ∀ z, as_int v = Some z → (z < lowest)%Z.

Definition rejected_unit_interval (v : flag_value) : Prop :=
  ∀ q, as_float v = Some q → ¬ (0 <= q ∧ q <= 1)%Q.

(** A model handle that accepts every call and touches nothing, as the mock
    of the tests does, and factories that hand it out. *)
Definition mock_model (fw : FrameworkType) : ModelHandle :=
  {| use_case := IMAGE_CLASSIFICATION;
     framework := fw;
     write_inc_config_file := λ fs _ _ _ _, Ok fs;
     quantize := λ fs _ _ _, Ok fs |}.

Definition mock_get_model (name : string) (fw : FrameworkType) : result ModelHandle :=
  Ok (mock_model fw).

Definition mock_load_dataset (dir : FS.path) (uc : UseCaseType) (fw : FrameworkType)
    : result DatasetHandle :=
  Ok {| ds_dir := dir; ds_use_case := uc; ds_framework := fw |}.

(** The temporary directories of the tests *)
Definition fs_model (model_name model_file : string) : FS.node :=
  FS.Dir (<["tmp" := FS.Dir (<[model_name := FS.Dir {["3" := FS.Dir {[model_file := FS.File]}]}]>
                            (<["data" := FS.empty_dir]>
                            (<["inc_config.yaml" := FS.File]> ∅)))]> ∅).

Definition args_for (model_name : string) (config : option FS.path) : cli_args :=
  {| model_dir := ["tmp"; model_name; "3"];
     dataset_dir := ["tmp"; "data"];
     output_dir := ["tmp"; "output"];
     inc_config := config;
     batch_size := None; max_trials := None; timeout := None;
     accuracy_criterion := None |}.

Definition args_with_options (model_name : string)
    (trials time accuracy : option flag_value) : cli_args :=
  {| model_dir := ["tmp"; model_name; "3"];
     dataset_dir := ["tmp"; "data"];
     output_dir := ["tmp"; "output"];
     inc_config := None;
     batch_size := None; max_trials := trials; timeout := time;
     accuracy_criterion := accuracy |}.

(** One invocation with the mock collaborators *)
Definition run_mock : cli_args → FS.node → outcome :=
  quantize_command mock_get_model mock_load_dataset.

End Quantize.

(** Case analysis over every way one invocation can go. *)
Ltac run_all :=
  unfold Quantize.quantize_command, Quantize.run_quantize;
  repeat match goal with
         | H : ?x = _ |- context [match ?x with _ => _ end] => rewrite H
         | |- context [match ?x with _ => _ end] => destruct x eqn:?
         end.

(** ** More of the file system: removing entries *)

Module FSMore.

Import FS.

(** Removes the entry at [p] with all it holds; [None] when there is no such
    entry. *)
Fixpoint unlink (n : node) (p : path) : option node :=
  match p with
  | [] => None
  | c :: p' =>
      match n with
      | File => None
      | Dir es =>
          match p' with
          | [] =>
              match es !! c with
              | Some _ => Some (Dir (delete c es))
              | None => None
              end
          | _ :: _ =>
              m ← es !! c;
              m' ← unlink m p';
              Some (Dir (<[c := m']> es))
          end
      end
  end.

Definition no_such_file : exn := Exn FileNotFoundError "No such file or directory".

(** [shutil.rmtree]: removes a directory tree *)
Definition rmtree (fs : node) (p : path) : result node :=
  match lookup fs p with
  | Some (Dir _) =>
      match unlink fs p with
      | Some fs' => Ok fs'
      | None => Raise no_such_file
      end
  | Some File => Raise (Exn NotADirectoryError "Not a directory")
  | None => Raise no_such_file
  end.

(** [os.remove]: removes a file *)
Definition remove (fs : node) (p : path) : result node :=
  match lookup fs p with
  | Some File =>
      match unlink fs p with
      | Some fs' => Ok fs'
      | None => Raise no_such_file
      end
  | Some (Dir _) => Raise (Exn OSError "Is a directory")
  | None => Raise no_such_file
  end.

(** Two paths neither of which leads to the other *)
Definition apart (p q : path) : Prop :=
  ¬ p `prefix_of` q ∧ ¬ q `prefix_of` p.

End FSMore.

(** A model directory with one entry, named ["2"]: the next number is taken. *)
Definition fs_with_version_2 : FS.node :=
  FS.Dir {["out" := FS.Dir {["resnet_v1_50" := FS.Dir {["2" := FS.empty_dir]}]}]}.

(** The model's directory is a regular file. *)
Definition fs_with_model_file : FS.node :=
  FS.Dir {["out" := FS.Dir {["resnet_v1_50" := FS.File]}]}.

(** A second model exported beside the first *)
Definition fs_with_other_model : FS.node :=
  FS.Dir {["out" := FS.Dir {["bert" := FS.Dir {["1" := TFExport.saved_model_tree]}]}]}.

(** ** [TFModel.cleanup_saved_objects_for_distributed] *)

Module Distributed.

Definition dirs : list string :=
  ["train_data"; "val_data"; "variables"; "assets"; "model_checkpoints"].

Definition files : list string := ["checkpoint"; "keras_metadata.pb"].

(** ["'{}' already cleaned up.".format(f)] *)
Definition already_cleaned_up (f : string) : string :=
  "'" +:+ f +:+ "' already cleaned up.".

Definition is_file_not_found (e : exn) : bool :=
  match exn_cls e with
  | FileNotFoundError => true
  | _ => false
  end.

(** [f.startswith('saved')] *)
Definition startswith_saved (f : string) : bool := String.prefix "saved" f.

Section WithDir.

(** [tlt.distributed.TLT_DISTRIBUTED_DIR], a constant defined elsewhere *)
Variable TLT_DISTRIBUTED_DIR : FS.path.

(** [try: ... except FileNotFoundError: print(...)] around one removal *)
Definition guarded (f : string) (removal : result FS.node)
    (st : FS.node * list string) : result (FS.node * list string) :=
  match removal with
  | Ok fs' => Ok (fs', st.2)
  | Raise e =>
      if is_file_not_found e
      then Ok (st.1, st.2 ++ [already_cleaned_up f])
      else Raise e
  end.

(** The body of the loop for one listed name; the state is the file system
    and the lines printed. *)
Definition cleanup_entry (f : string) (st : FS.node * list string)
    : result (FS.node * list string) :=
  let full_path := TLT_DISTRIBUTED_DIR ++ [f] in
  if FS.isdir st.1 full_path && bool_decide (f ∈ dirs)
  then guarded f (FSMore.rmtree st.1 full_path) st
  else if FS.isfile st.1 full_path
          && (bool_decide (f ∈ files) || startswith_saved f)
  then guarded f (FSMore.remove st.1 full_path) st
  else Ok st.

Fixpoint cleanup_entries (names : list string) (st : FS.node * list string)
    : result (FS.node * list string) :=
  match names with
  | [] => Ok st
  | f :: rest => st' ← cleanup_entry f st; cleanup_entries rest st'
  end.

Definition cleanup_saved_objects_for_distributed (fs : FS.node)
    : result (FS.node * list string) :=
  names ← FS.listdir fs TLT_DISTRIBUTED_DIR;
  cleanup_entries names (fs, []).

End WithDir.

(** The entries the loop removes: a directory with one of the five names,
    a file with one of the two names or a name that starts with "saved". *)
Definition cleaned (f : string) (n : FS.node) : bool :=
  match n with
  | FS.Dir _ => bool_decide (f ∈ dirs)
  | FS.File => bool_decide (f ∈ files) || startswith_saved f
  end.

Definition kept (kv : string * FS.node) : Prop := cleaned kv.1 kv.2 = false.

(** What one turn of the loop does to the entries of the directory *)
Definition without (es : gmap string FS.node) (f : string) : gmap string FS.node :=
  match es !! f with
  | Some n => if cleaned f n then delete f es else es
  | None => es
  end.

(** A working directory after a distributed run, beside a script. *)
Definition fs_after_training : FS.node :=
  FS.Dir {["dist" := FS.Dir
    (<["train_data" := FS.Dir {["shard0" := FS.File]}]>
    (<["variables" := FS.empty_dir]>
    (<["saved_model.pb" := FS.File]>
    (<["saved_loss" := FS.File]>
    (<["checkpoint" := FS.File]>
    (<["saved_runs" := FS.empty_dir]>
    (<["hostfile" := FS.File]> ∅)))))));
    "home" := FS.Dir {["notes.txt" := FS.File]}]}.

(** The same tree once cleaned up *)
Definition fs_cleaned : FS.node :=
  FS.Dir {["dist" := FS.Dir
    (<["saved_runs" := FS.empty_dir]>
    (<["hostfile" := FS.File]> ∅));
    "home" := FS.Dir {["notes.txt" := FS.File]}]}.

End Distributed.

(** ** The languages of the hostfile patterns *)

Module HostfileMore.

Import Regex Hostfile.

(** Every 8-bit character *)
Definition all_ascii : list ascii := map ascii_of_nat (seq 0 256).

(** A pattern without [*] has finitely many strings; [language] lists them. *)
Fixpoint star_free (r : re) : bool :=
  match r with
  | Void | Eps | Lit _ | Class _ => true
  | Cat r1 r2 | Alt r1 r2 => star_free r1 && star_free r2
  | Star _ => false
  end.

Fixpoint language (r : re) : list Py.str :=
  match r with
  | Void => []
  | Eps => [[]]
  | Lit c => [[c]]
  | Class ranges => map (λ c, [c]) (List.filter (in_class ranges) all_ascii)
  | Cat r1 r2 => s1 ← language r1; s2 ← language r2; [s1 ++ s2]
  | Alt r1 r2 => language r1 ++ language r2
  | Star _ => []
  end.

(** [str(n)] *)
Definition numeral (n : nat) : Py.str := Py.of_string (str_of_nat n).

(** The decimal numerals of 0 to 255 *)
Definition octets : list Py.str := map numeral (seq 0 256).

Definition dot : Py.str := Py.of_string ".".

(** [a.b.c.d], each number in decimal *)
Definition dotted_quad (a b c d : nat) : Py.str :=
  numeral a ++ dot ++ numeral b ++ dot ++ numeral c ++ dot ++ numeral d.

(** [[a-zA-Z0-9]] and [[a-zA-Z0-9\-]] *)
Definition is_alnum (c : ascii) : bool :=
  in_class [("a", "z"); ("A", "Z"); ("0", "9")]%char c.
Definition is_alnum_dash (c : ascii) : bool :=
  in_class [("a", "z"); ("A", "Z"); ("0", "9"); ("-", "-")]%char c.

(** A label: letters, digits and hyphens, at least one character, with no
    hyphen at either end *)
Definition good_label (l : Py.str) : bool :=
  match l with
  | [] => false
  | c :: _ => is_alnum c && forallb is_alnum_dash l && is_alnum (List.last l c)
  end.

(** [sep.join(pieces)] *)
Fixpoint join (sep : Py.str) (pieces : list Py.str) : Py.str :=
  match pieces with
  | [] => []
  | [p] => p
  | p :: rest => p ++ sep ++ join sep rest
  end.

(** A dot-separated sequence of one or more labels *)
Definition dotted_name (h : Py.str) : Prop :=
  ∃ labels, labels ≠ [] ∧ Forall (λ l, good_label l = true) labels ∧ h = join dot labels.

(** A dotted quad of numbers up to 255 *)
Definition is_dotted_quad (s : Py.str) : Prop :=
  ∃ a b c d : nat,
    (a ≤ 255 ∧ b ≤ 255 ∧ c ≤ 255 ∧ d ≤ 255)%nat ∧ s = dotted_quad a b c d.

(** The characters the six patterns mention: letters, digits, the hyphen,
    the dot, the colon, and the blank and the equals sign of [ slots=] *)
Definition hostfile_char (c : ascii) : bool :=
  is_alnum_dash c || bool_decide (c ∈ ["."; ":"; " "; "="]%char).

(** Sample hostfiles: addresses only, with a blank second line, and with a
    comment line *)
Definition addresses_only : list Py.str :=
  map Py.of_string ["10.0.0.1"; "10.0.0.2 slots=4"; "10.0.0.3:8"].

Definition with_blank_line : list Py.str :=
  map Py.of_string ["10.0.0.1"; "  "; "10.0.0.2"].

Definition with_comment : list Py.str :=
  map Py.of_string ["10.0.0.1"; "# workers"; "10.0.0.2"].

(** A resolver that refuses what is not a host name *)
Definition checked_dns (h : Py.str) : result Py.str :=
  if matches hostname h then example_dns h
  else Raise (Exn ValueError "not a host name").

End HostfileMore.

(** ** Version strings *)

From Stdlib Require DecimalFacts.

Module AMPMore.

Import AMP.

(** A version string [M.m] followed by [rest], as in [2.12.0] or [2.9] *)
Definition dotted_version (M m : nat) (rest : string) : string :=
  str_of_nat M +:+ "." +:+ str_of_nat m +:+ rest.

Definition version_warning (VERSION : string) : string :=
  "Warning: Auto mixed precision requires TensorFlow 2.9.0 or later (found "
  +:+ VERSION +:+ ").".

End AMPMore.

(** * Properties *)

(** ** File-system lemmas *)

Section FSLemmas.

Import FS.

Lemma dir_entries_empty_dir p : dir_entries empty_dir p = ∅.
Proof. destruct p; reflexivity. Qed.

Lemma dir_entries_cons es a q :
  dir_entries (Dir es) (a :: q) = dir_entries (default empty_dir (es !! a)) q.
Proof.
  unfold dir_entries. simpl.
  destruct (es !! a) as [m|] eqn:E; simpl; [reflexivity|].
  destruct q; reflexivity.
Qed.

Lemma dir_entries_insert_cons es a m q :
  dir_entries (Dir (<[a := m]> es)) (a :: q) = dir_entries m q.
Proof. unfold dir_entries. simpl. by rewrite lookup_insert_eq. Qed.

(** Writing at [d/c] gives the directory [d] the entry [c], and changes no
    other entry of [d]. *)
Lemma put_dir_entries d : ∀ fs fs' c new,
  put fs (d ++ [c]) new = Some fs' →
  lookup fs' d = Some (Dir (<[c := new]> (dir_entries fs d))).
Proof.
  induction d as [|a d IH]; intros fs fs' c new H; simpl in *.
  - destruct fs as [|es]; [discriminate|]. by simplify_eq.
  - destruct fs as [|es]; [discriminate|].
    destruct (put (default empty_dir (es !! a)) (d ++ [c]) new) as [m|] eqn:E;
      simpl in H; [|discriminate].
    simplify_eq. rewrite lookup_insert_eq. simpl.
    rewrite (IH _ _ _ _ E). by rewrite dir_entries_cons.
Qed.

(** Creating a directory leaves the entries below it as they were. *)
Lemma makedirs_dir_entries p : ∀ fs fs' v,
  makedirs fs p = Some fs' →
  dir_entries fs' (p ++ [v]) = dir_entries fs (p ++ [v]).
Proof.
  induction p as [|a p IH]; intros fs fs' v H; simpl in *.
  - destruct fs; by simplify_eq.
  - destruct fs as [|es]; [discriminate|].
    destruct (makedirs (default empty_dir (es !! a)) p) as [m|] eqn:E;
      simpl in H; [|discriminate].
    simplify_eq. rewrite dir_entries_insert_cons, dir_entries_cons. eauto.
Qed.

Lemma verify_directory_dir_entries fs fs' p v :
  verify_directory fs p false = Ok fs' →
  dir_entries fs' (p ++ [v]) = dir_entries fs (p ++ [v]).
Proof.
  unfold verify_directory. intros H.
  destruct (lookup fs p) as [[|es]|] eqn:E; simplify_eq; [done|].
  destruct (makedirs fs p) as [m|] eqn:E'; simplify_eq.
  by apply makedirs_dir_entries.
Qed.

End FSLemmas.

(** ** Decimal numerals *)

Lemma str_of_nat_inj n m : str_of_nat n = str_of_nat m → n = m.
Proof.
  unfold str_of_nat. intros H.
  apply (f_equal NilEmpty.uint_of_string) in H.
  rewrite !NilEmpty.usu in H. injection H as H.
  apply (f_equal Nat.of_uint) in H.
  by rewrite !DecimalNat.Unsigned.of_to in H.
Qed.

(** ** [TFModel.export] *)

Section ExportLemmas.

Import FS TFExport.

Variable validate_model_name : string → string.

Local Abbreviation export := (TFExport.export validate_model_name).
Local Abbreviation export_n := (TFExport.export_n validate_model_name).
Local Abbreviation saved_root := (TFExport.saved_root validate_model_name).

(** The number picked is one more than the number of entries. *)
Lemma numbered_dir_ok fs d q :
  numbered_dir fs d = Ok q → q = d ++ [str_of_nat (S (size (dir_entries fs d)))].
Proof.
  unfold numbered_dir, exists_, listdir, dir_entries. intros Hq.
  destruct (lookup fs d) as [[|es]|] eqn:El; simpl in Hq; try discriminate.
  - rewrite length_map, length_map_to_list in Hq.
    destruct (size es) as [|s] eqn:Esz; simpl in Hq; injection Hq as <-; [done|].
    do 3 f_equal. lia.
  - by injection Hq as <-.
Qed.

Lemma numbered_dir_is_ok fs d :
  lookup fs d ≠ Some File → ∃ n, numbered_dir fs d = Ok (d ++ [n]).
Proof.
  unfold numbered_dir, exists_, listdir. intros Hd.
  destruct (lookup fs d) as [[|es]|]; simpl; [done| |by eauto].
  destruct (negb _); simpl; by eauto.
Qed.

Lemma numbered_dir_value fs d :
  lookup fs d ≠ Some File →
  numbered_dir fs d = Ok (d ++ [str_of_nat (S (size (dir_entries fs d)))]).
Proof.
  intros Hd. destruct (numbered_dir_is_ok fs d Hd) as [n Hn].
  rewrite Hn. by rewrite (numbered_dir_ok _ _ _ Hn).
Qed.

(** What a save that goes through has written. *)
Lemma save_into_holds es0 es :
  save_into es0 = Some es →
  es !! "saved_model.pb" = Some File ∧
  (∃ v, es !! "variables" = Some (Dir v)) ∧
  (∃ a, es !! "assets" = Some (Dir a)).
Proof.
  unfold save_into. intros H.
  destruct (es0 !! "saved_model.pb") as [[|?]|];
    destruct (es0 !! "variables") as [[|v]|];
    destruct (es0 !! "assets") as [[|a]|];
    cbv beta iota in H; try discriminate H; injection H as <-;
    (split; [by rewrite lookup_insert_eq|]);
    (split;
     [rewrite lookup_insert_ne by done; rewrite lookup_insert_eq;
      simpl; unfold empty_dir; eauto
     |rewrite lookup_insert_ne by done; rewrite lookup_insert_ne by done;
      rewrite lookup_insert_eq; simpl; unfold empty_dir; eauto]).
Qed.

(** A directory that took a SavedModel takes the next one too. *)
Lemma save_into_again es0 es : save_into es0 = Some es → is_Some (save_into es).
Proof.
  intros (Hpb & (v & Hv) & (a & Ha))%save_into_holds.
  unfold save_into. rewrite Hpb, Hv, Ha. eauto.
Qed.

Lemma save_into_empty : save_into ∅ = Some (dir_entries saved_model_tree []).
Proof. reflexivity. Qed.

Lemma model_save_inv fs p fs' :
  model_save fs p = Ok fs' →
  ∃ es, save_into (dir_entries fs p) = Some es ∧ put fs p (Dir es) = Some fs'.
Proof.
  unfold model_save. intros H.
  destruct (save_into (dir_entries fs p)) as [es|] eqn:Es;
    [|by destruct (lookup fs p) as [[|?]|]].
  destruct (put fs p (Dir es)) as [m|] eqn:Ep;
    [|by destruct (lookup fs p) as [[|?]|]].
  exists es. split; [done|].
  destruct (lookup fs p) as [[|?]|]; by simplify_eq.
Qed.

(** What a successful [export] returns and leaves behind. *)
Lemma export_ok_inv self fs output_dir p fs' :
  export self fs output_dir = Ok (p, fs') →
  let d := saved_root self output_dir in
  let n := S (size (dir_entries fs d)) in
  is_Some (_model self) ∧
  p = d ++ [str_of_nat n] ∧
  ∃ saved, lookup fs' d = Some (Dir (<[str_of_nat n := saved]> (dir_entries fs d))).
Proof.
  unfold TFExport.export, TFExport.saved_root. intros H.
  destruct (_model self) as [k|]; [|discriminate].
  destruct (verify_directory fs output_dir false) as [fs1|] eqn:Ev; [|discriminate].
  simpl in H.
  pose proof (verify_directory_dir_entries _ _ _
                (validate_model_name (model_name self)) Ev) as Hent.
  set (d := output_dir ++ [validate_model_name (model_name self)]) in *.
  destruct (numbered_dir fs1 d) as [q|] eqn:Hq; [|discriminate]. simpl in H.
  destruct (model_save fs1 q) as [fs2|] eqn:Hs; [|discriminate].
  simpl in H. injection H as <- <-.
  apply numbered_dir_ok in Hq as ->.
  split; [eauto|]. rewrite <- Hent. split; [done|].
  apply model_save_inv in Hs as (es & _ & Ep).
  exists (Dir es). by apply put_dir_entries in Ep.
Qed.

Lemma export_ok_entries self fs output_dir p fs' :
  export self fs output_dir = Ok (p, fs') →
  let d := saved_root self output_dir in
  ∃ saved,
    dir_entries fs' d =
      <[str_of_nat (S (size (dir_entries fs d))) := saved]> (dir_entries fs d).
Proof.
  intros H. apply export_ok_inv in H as (_ & _ & saved & Hl). simpl.
  exists saved. unfold dir_entries at 1. by rewrite Hl.
Qed.

Lemma version_names_S k :
  version_names (S k) = {[str_of_nat (S k)]} ∪ version_names k.
Proof.
  unfold version_names. rewrite seq_S, map_app, list_to_set_app_L. simpl.
  by rewrite union_empty_r_L, union_comm_L.
Qed.

Lemma version_names_fresh k : str_of_nat (S k) ∉ version_names k.
Proof.
  unfold version_names. rewrite elem_of_list_to_set, list_elem_of_fmap.
  intros (i & Hi & Hin). apply str_of_nat_inj in Hi. subst i.
  apply list_elem_of_In, in_seq in Hin. lia.
Qed.

Lemma versions_upto_fresh fs d : dir_entries fs d = ∅ → versions_upto fs d 0.
Proof. intros H. unfold versions_upto. rewrite H. split; [set_solver|done]. Qed.

Lemma export_step self fs output_dir p fs' k :
  versions_upto fs (saved_root self output_dir) k →
  export self fs output_dir = Ok (p, fs') →
  p = saved_root self output_dir ++ [str_of_nat (S k)] ∧
  versions_upto fs' (saved_root self output_dir) (S k).
Proof.
  intros [Hdom Hsz] H.
  pose proof (export_ok_entries _ _ _ _ _ H) as (saved & He).
  apply export_ok_inv in H as (_ & Hp & _). simpl in *.
  rewrite Hsz in *. split; [done|].
  unfold versions_upto. rewrite He.
  assert (dir_entries fs (saved_root self output_dir) !! str_of_nat (S k) = None) as Hn.
  { apply not_elem_of_dom. rewrite Hdom. apply version_names_fresh. }
  rewrite dom_insert_L, Hdom, version_names_S, map_size_insert_None, Hsz; done.
Qed.

Lemma export_n_versions n : ∀ self fs output_dir ps fs' k,
  versions_upto fs (saved_root self output_dir) k →
  export_n self fs output_dir n = Ok (ps, fs') →
  ps = map (λ i, saved_root self output_dir ++ [str_of_nat i]) (seq (S k) n) ∧
  versions_upto fs' (saved_root self output_dir) (k + n).
Proof.
  induction n as [|n IH]; intros self fs output_dir ps fs' k Hk H; simpl in H.
  - injection H as <- <-. by rewrite Nat.add_0_r.
  - destruct (export self fs output_dir) as [[p fs1]|] eqn:E1; [|discriminate].
    simpl in H.
    destruct (export_n self fs1 output_dir n) as [[qs fs2]|] eqn:E2; [|discriminate].
    simpl in H. injection H as <- <-.
    destruct (export_step _ _ _ _ _ _ Hk E1) as [-> Hk1].
    destruct (IH _ _ _ _ _ _ Hk1 E2) as [-> Hk2].
    split; [done|]. by replace (k + S n) with (S k + n) by lia.
Qed.

End ExportLemmas.

Section ExportProperties.

Import FS TFExport.

Lemma lookup_snoc p : ∀ fs es c,
  lookup fs p = Some (Dir es) → lookup fs (p ++ [c]) = es !! c.
Proof.
  induction p as [|a p IH]; intros fs es c H; simpl in *.
  - simplify_eq. by destruct (es !! c).
  - destruct fs as [|es']; [discriminate|].
    destruct (es' !! a) as [m|]; simpl in *; [eauto|discriminate].
Qed.

Lemma put_is_Some p : ∀ fs es v c new,
  lookup fs p = Some (Dir es) → es !! v ≠ Some File →
  is_Some (put fs (p ++ [v; c]) new).
Proof.
  induction p as [|a p IH]; intros fs es v c new H Hv; simpl in *.
  - simplify_eq. destruct (es !! v) as [[|es']|]; simpl; by eauto.
  - destruct fs as [|es']; [discriminate|].
    destruct (es' !! a) as [m|] eqn:E; simpl in *; [|discriminate].
    destruct (IH _ _ v c new H Hv) as [m' Hm']. rewrite Hm'. simpl. eauto.
Qed.

Lemma lookup_put p : ∀ fs fs' new, put fs p new = Some fs' → lookup fs' p = Some new.
Proof.
  induction p as [|a p IH]; intros fs fs' new H; simpl in *; [by simplify_eq|].
  destruct fs as [|es]; [discriminate|].
  destruct (put (default empty_dir (es !! a)) p new) as [m|] eqn:E;
    simpl in H; [|discriminate].
  simplify_eq. rewrite lookup_insert_eq. simpl. eauto.
Qed.

(** [export] succeeds as soon as the output directory is there, the model's
    own directory under it is not a file, and the numbered directory can
    take the SavedModel. *)
Lemma export_succeeds validate_model_name self fs output_dir es saved :
  is_Some (_model self) →
  lookup fs output_dir = Some (Dir es) →
  es !! validate_model_name (model_name self) ≠ Some File →
  lookup fs (saved_root validate_model_name self output_dir
             ++ [str_of_nat (S (size (dir_entries fs
                   (saved_root validate_model_name self output_dir))))]) ≠ Some File →
  save_into (dir_entries fs
    (saved_root validate_model_name self output_dir
     ++ [str_of_nat (S (size (dir_entries fs
           (saved_root validate_model_name self output_dir))))])) = Some saved →
  ∃ fs',
    export validate_model_name self fs output_dir
    = Ok (saved_root validate_model_name self output_dir
          ++ [str_of_nat (S (size (dir_entries fs
                (saved_root validate_model_name self output_dir))))], fs') ∧
    lookup fs' (saved_root validate_model_name self output_dir)
    = Some (Dir (<[str_of_nat (S (size (dir_entries fs
                     (saved_root validate_model_name self output_dir)))) := Dir saved]>
                   (dir_entries fs (saved_root validate_model_name self output_dir)))) ∧
    lookup fs' (saved_root validate_model_name self output_dir
                ++ [str_of_nat (S (size (dir_entries fs
                      (saved_root validate_model_name self output_dir))))])
    = Some (Dir saved).
Proof.
  intros [k Hk] Hout Hv. unfold export, saved_root. rewrite Hk.
  unfold verify_directory. rewrite Hout. cbn [mbind result_bind].
  set (v := validate_model_name (model_name self)) in *.
  pose proof (lookup_snoc _ _ _ v Hout) as Hd.
  rewrite (numbered_dir_value fs (output_dir ++ [v])) by (by rewrite Hd).
  cbn [mbind result_bind].
  set (c := str_of_nat (S (size (dir_entries fs (output_dir ++ [v]))))).
  intros Hfile Hsave. unfold model_save. rewrite Hsave.
  assert ((output_dir ++ [v]) ++ [c] = output_dir ++ [v; c]) as Hp
    by (by rewrite <- app_assoc).
  destruct (put_is_Some output_dir fs es v c (Dir saved) Hout Hv) as [m Hm].
  rewrite <- Hp in Hm. rewrite Hm.
  exists m. split; [|split].
  - by destruct (lookup fs ((output_dir ++ [v]) ++ [c])) as [[|?]|].
  - by apply put_dir_entries in Hm.
  - by apply lookup_put in Hm.
Qed.

Lemma filter_all {A} (P : A → Prop) `{∀ x, Decision (P x)} (l : list A) :
  Forall P l → filter P l = l.
Proof.
  induction 1 as [|x l Hx Hl IH]; [done|].
  rewrite filter_cons_True by done. by rewrite IH.
Qed.

(** A successful [export] leaves a SavedModel at the path it returns. *)
Lemma export_ok_saved validate_model_name self fs output_dir p fs' :
  export validate_model_name self fs output_dir = Ok (p, fs') →
  holds_saved_model fs' p.
Proof.
  unfold export. intros H.
  destruct (_model self) as [k|]; [|discriminate].
  destruct (verify_directory fs output_dir false) as [fs1|]; [|discriminate].
  simpl in H.
  destruct (numbered_dir fs1 _) as [q|]; [|discriminate]. simpl in H.
  destruct (model_save fs1 q) as [fs2|] eqn:Hs; [|discriminate].
  simpl in H. injection H as <- <-.
  apply model_save_inv in Hs as (es & Hes & Ep). apply lookup_put in Ep.
  apply save_into_holds in Hes as (Hpb & (v & Hv) & (a & Ha)).
  unfold holds_saved_model, isfile, isdir.
  rewrite !(lookup_snoc _ _ _ _ Ep), Hpb, Hv, Ha. done.
Qed.

(** C1, as stated, fails: with a stray file in the model's directory the
    version chosen is 2, although no numbered subdirectory exists, and one
    successful export leaves the versions {2}, not {1}. *)
Lemma export_counts_every_entry :
  ¬ (∀ p fs',
       export id resnet fs_with_notes ["out"] = Ok (p, fs') →
       p = saved_root id resnet ["out"]
             ++ [str_of_nat (1 + count_numbered_subdirs fs_with_notes
                                   (saved_root id resnet ["out"]))]).
Proof.
  intros H.
  assert (∃ fs', export id resnet fs_with_notes ["out"]
                 = Ok (["out"; "resnet_v1_50"; "2"], fs')) as [fs' E].
  { eexists. vm_compute. reflexivity. }
  specialize (H _ _ E). clear E. vm_compute in H. discriminate H.
Qed.

(** C1 (amended): a successful [export] picks version 1 + the number of
    entries, of any kind, of [<output_dir>/<validated model name>/] (1 when
    that directory is absent or empty); this is 1 + the count of numbered
    subdirectories whenever the directory holds nothing else; and [n]
    successive successful exports that start with that directory absent or
    empty produce the versions 1, 2, ..., n in this order, which are then
    exactly its entries. *)
Theorem export_version_numbering validate_model_name self fs output_dir :
  (∀ p fs',
     export validate_model_name self fs output_dir = Ok (p, fs') →
     p = saved_root validate_model_name self output_dir
           ++ [str_of_nat (1 + size (dir_entries fs
                 (saved_root validate_model_name self output_dir)))]) ∧
  (∀ p fs',
     export validate_model_name self fs output_dir = Ok (p, fs') →
     Forall (λ e, is_numbered_subdir e = true)
       (map_to_list (dir_entries fs (saved_root validate_model_name self output_dir))) →
     p = saved_root validate_model_name self output_dir
           ++ [str_of_nat (1 + count_numbered_subdirs fs
                 (saved_root validate_model_name self output_dir))]) ∧
  (∀ n ps fs',
     dir_entries fs (saved_root validate_model_name self output_dir) = ∅ →
     export_n validate_model_name self fs output_dir n = Ok (ps, fs') →
     ps = map (λ i, saved_root validate_model_name self output_dir ++ [str_of_nat i])
              (seq 1 n) ∧
     dom (dir_entries fs' (saved_root validate_model_name self output_dir))
     = version_names n ∧
     size (dir_entries fs' (saved_root validate_model_name self output_dir)) = n).
Proof.
  set (d := saved_root validate_model_name self output_dir). split; [|split].
  - intros p fs' H. by apply export_ok_inv in H as (_ & -> & _).
  - intros p fs' H Hall. apply export_ok_inv in H as (_ & -> & _).
    unfold count_numbered_subdirs. fold d.
    by rewrite (filter_all _ _ Hall), length_map_to_list.
  - intros n ps fs' Hfresh H.
    apply versions_upto_fresh in Hfresh.
    destruct (export_n_versions _ _ _ _ _ _ _ _ Hfresh H) as [-> [Hd Hs]].
    done.
Qed.

Lemma export_version_numbering_witness :
  ∃ ps fs',
    export_n id resnet fs_empty_out ["out"] 3 = Ok (ps, fs') ∧
    ps = [["out"; "resnet_v1_50"; "1"]; ["out"; "resnet_v1_50"; "2"];
          ["out"; "resnet_v1_50"; "3"]] ∧
    dom (dir_entries fs' ["out"; "resnet_v1_50"]) = version_names 3.
Proof.
  assert (∃ ps fs', export_n id resnet fs_empty_out ["out"] 3 = Ok (ps, fs'))
    as (ps & fs' & E).
  { do 2 eexists. vm_compute. reflexivity. }
  exists ps, fs'. split; [exact E|].
  destruct (export_version_numbering id resnet fs_empty_out ["out"]) as (_ & _ & H).
  destruct (H 3 ps fs' eq_refl E) as (-> & Hd & _).
  split; [reflexivity | exact Hd].
Defined.

(** C4, as stated, fails on the versioning rule: with one unnumbered
    subdirectory already present, [export] writes to version 2, where the
    rule of numbered subdirectories gives 1. *)
Lemma export_loaded_ignores_rule :
  ¬ (∀ p fs',
       export id resnet fs_with_checkpoints ["out"] = Ok (p, fs') →
       p = ["out"; "resnet_v1_50";
            str_of_nat (1 + count_numbered_subdirs fs_with_checkpoints
                              ["out"; "resnet_v1_50"])]).
Proof.
  intros H.
  assert (∃ fs', export id resnet fs_with_checkpoints ["out"]
                 = Ok (["out"; "resnet_v1_50"; "2"], fs')) as [fs' E].
  { eexists. vm_compute. reflexivity. }
  specialize (H _ _ E). clear E. vm_compute in H. discriminate H.
Qed.

(** C4 (amended): [export] raises the [ValueError] "Unable to export the
    model, because it hasn't been loaded or trained yet" when [self._model]
    is unset; when it is set, an [export] that returns has saved the model at
    the path it returns, [<output_dir>/<validated model name>/<n>] with [n]
    one more than the number of entries already in
    [<output_dir>/<validated model name>/]; and it does return, leaving
    exactly the SavedModel there, when the output directory exists, the
    model's entry in it is not a file and nothing exists yet at that
    numbered path. *)
Theorem export_state_gate validate_model_name self fs output_dir :
  (_model self = None →
     export validate_model_name self fs output_dir
     = Raise (Exn ValueError
         "Unable to export the model, because it hasn't been loaded or trained yet")) ∧
  (is_Some (_model self) →
     (∀ p fs',
        export validate_model_name self fs output_dir = Ok (p, fs') →
        p = (output_dir ++ [validate_model_name (model_name self)])
              ++ [str_of_nat (1 + size (dir_entries fs
                    (output_dir ++ [validate_model_name (model_name self)])))] ∧
        holds_saved_model fs' p) ∧
     (∀ es,
        lookup fs output_dir = Some (Dir es) →
        es !! validate_model_name (model_name self) ≠ Some File →
        lookup fs ((output_dir ++ [validate_model_name (model_name self)])
                   ++ [str_of_nat (1 + size (dir_entries fs
                         (output_dir ++ [validate_model_name (model_name self)])))])
        = None →
        ∃ p fs', export validate_model_name self fs output_dir = Ok (p, fs') ∧
                 lookup fs' p = Some saved_model_tree)).
Proof.
  split.
  - intros Hn. unfold export. by rewrite Hn.
  - intros Hs. split.
    + intros p fs' H. split; [|by eapply export_ok_saved].
      by apply export_ok_inv in H as (_ & -> & _).
    + intros es Hout Hv Hfree.
      destruct (export_succeeds validate_model_name self fs output_dir es
                  (dir_entries saved_model_tree []) Hs Hout Hv)
        as (fs' & E & _ & Hl).
      * unfold saved_root. cbn [Nat.add] in Hfree. by rewrite Hfree.
      * unfold saved_root, dir_entries at 1. cbn [Nat.add] in Hfree.
        rewrite Hfree. apply save_into_empty.
      * eauto.
Qed.

(** A regular file at the numbered path stops the export: the save cannot
    make its directory there. *)
Lemma export_onto_file_fails validate_model_name self fs output_dir es ents :
  is_Some (_model self) →
  lookup fs output_dir = Some (Dir es) →
  es !! validate_model_name (model_name self) = Some (Dir ents) →
  ents !! str_of_nat (S (size ents)) = Some File →
  is_ok (export validate_model_name self fs output_dir) = false.
Proof.
  intros [k Hk] Hout Hv Hf. unfold export. rewrite Hk.
  unfold verify_directory. rewrite Hout. cbn [mbind result_bind].
  set (v := validate_model_name (model_name self)) in *.
  pose proof (lookup_snoc _ _ _ v Hout) as Hd. rewrite Hv in Hd.
  rewrite (numbered_dir_value fs (output_dir ++ [v])) by (by rewrite Hd).
  cbn [mbind result_bind].
  assert (dir_entries fs (output_dir ++ [v]) = ents) as ->
    by (unfold dir_entries; by rewrite Hd).
  unfold model_save.
  by rewrite (lookup_snoc _ _ _ (str_of_nat (S (size ents))) Hd), Hf.
Qed.

Example export_onto_file_2 :
  is_ok (export id resnet fs_with_file_2 ["out"]) = false.
Proof. vm_compute. reflexivity. Qed.

Lemma export_state_gate_witness :
  export id untrained fs_empty_out ["out"]
  = Raise (Exn ValueError
      "Unable to export the model, because it hasn't been loaded or trained yet") ∧
  ∃ fs', export id resnet fs_empty_out ["out"] = Ok (["out"; "resnet_v1_50"; "1"], fs') ∧
         lookup fs' ["out"; "resnet_v1_50"; "1"] = Some saved_model_tree.
Proof.
  split.
  - exact (proj1 (export_state_gate id untrained fs_empty_out ["out"]) eq_refl).
  - destruct (export_state_gate id resnet fs_empty_out ["out"]) as (_ & H).
    destruct (H (ex_intro _ (KerasModel 0) eq_refl)) as (Hshape & Hruns).
    destruct (Hruns ∅ eq_refl) as (p & fs' & E & Hl).
    { vm_compute. discriminate. }
    { vm_compute. reflexivity. }
    destruct (Hshape p fs' E) as (Hp & _). vm_compute in Hp. subst p.
    exists fs'. split; [exact E | exact Hl].
Defined.

End ExportProperties.

(** ** [TFModel.set_auto_mixed_precision] *)

Section AMPProperties.

Import AMP.

(** C8, as stated, fails: on a runtime older than 2.9 a detection failure in
    auto mode is swallowed without any message. *)
Lemma detection_failure_silent_before_2_9 :
  auto_on_2_8_undetected = Ok initial ∧
  ¬ (∃ st', auto_on_2_8_undetected = Ok st' ∧
            "Unable to determine the CPU type: lscpu not found" ∈ stdout st').
Proof.
  split; [reflexivity|].
  intros (st' & H & Hin). vm_compute in H. injection H as <-.
  simpl in Hin. by apply not_elem_of_nil in Hin.
Qed.

(** C8 (amended): with a runtime version [v] read from [tf.version.VERSION],
    a call in auto mode ([None]) returns normally whatever the platform
    detection does; on a runtime that supports the feature the option is set
    to "the detected CPU type is 'SPR'" (false on a detection failure), on an
    older one it is left alone, so auto mode turns it on only for 'SPR'; a
    detection failure prints "Unable to determine the CPU type: <e>" only on
    a supporting runtime and prints nothing on an older one; and an explicit
    [True]/[False] on an older runtime changes no option and prints the
    version warning. *)
Theorem auto_mixed_precision_modes VERSION v cpu st :
  tf_version VERSION = Ok v →
  (∃ st',
     set_auto_mixed_precision VERSION cpu ArgNone st = Ok st' ∧
     auto_mixed_precision_mkl st' =
       (if supported v then Some (is_spr cpu) else auto_mixed_precision_mkl st) ∧
     (auto_mixed_precision_mkl st' = Some true →
        cpu = Detected "SPR" ∨ auto_mixed_precision_mkl st = Some true) ∧
     (∀ e, cpu = DetectionFailed e →
        stdout st' =
          if supported v
          then stdout st ++ ["Unable to determine the CPU type: " +:+ e]
          else stdout st)) ∧
  (∀ b, supported v = false →
     ∃ st',
       set_auto_mixed_precision VERSION cpu (ArgBool b) st = Ok st' ∧
       auto_mixed_precision_mkl st' = auto_mixed_precision_mkl st ∧
       stdout st' =
         stdout st ++ ["Warning: Auto mixed precision requires TensorFlow 2.9.0 or later (found "
                       +:+ format_version VERSION +:+ ")."]).
Proof.
  intros Hv. split.
  - unfold set_auto_mixed_precision. rewrite Hv. simpl.
    destruct cpu as [t|e]; destruct (supported v) eqn:Hs; simpl.
    + eexists. split; [reflexivity|]. simpl. split; [done|]. split; [|done].
      destruct (String.eqb_spec t "SPR") as [->|_]; [by left|].
      simpl. discriminate.
    + eexists. split; [reflexivity|]. simpl. split; [done|]. split; [by right|done].
    + eexists. split; [reflexivity|]. simpl. split; [done|]. split; [done|].
      by intros ? [= ->].
    + eexists. split; [reflexivity|]. simpl. split; [done|]. split; [by right|].
      by intros ? [= ->].
  - intros b Hs. unfold set_auto_mixed_precision. rewrite Hv. simpl. rewrite Hs.
    simpl. eexists. split; [reflexivity|]. done.
Qed.

Lemma auto_mixed_precision_modes_witness :
  set_auto_mixed_precision (Some "2.12.0") (DetectionFailed "lscpu not found") ArgNone initial
  = Ok {| stdout := ["Unable to determine the CPU type: lscpu not found"];
          auto_mixed_precision_mkl := Some false |}.
Proof.
  destruct (auto_mixed_precision_modes (Some "2.12.0") (2, 12)%Z
              (DetectionFailed "lscpu not found") initial eq_refl)
    as ((st' & E & _) & _).
  rewrite E. vm_compute in E. injection E as <-. reflexivity.
Defined.

End AMPProperties.

(** ** Regular expressions: the matcher decides the language *)

Section RegexLemmas.

Import Regex.

Lemma Matches_nil_nullable r s : Matches r s → s = [] → nullable r = true.
Proof.
  induction 1 as [| | |r1 r2 s1 s2 _ IH1 _ IH2|r1 r2 s _ IH|r1 r2 s _ IH| |];
    intros Hs; simpl; try discriminate; try done.
  - apply app_eq_nil in Hs as [-> ->]. by rewrite IH1, IH2.
  - by rewrite IH.
  - rewrite IH by done. apply orb_true_r.
Qed.

Lemma nullable_Matches r : nullable r = true → Matches r [].
Proof.
  induction r as [| | | |r1 IH1 r2 IH2|r1 IH1 r2 IH2|r IH]; simpl; intros H;
    try discriminate.
  - constructor.
  - apply andb_true_iff in H as [H1 H2].
    change (@nil ascii) with (@nil ascii ++ @nil ascii). constructor; auto.
  - apply orb_true_iff in H as [H|H]; [apply M_Alt_l|apply M_Alt_r]; auto.
  - constructor.
Qed.

(** A non-empty match of [r*] starts with a non-empty match of [r]. *)
Lemma Matches_Star_cons r c s :
  Matches (Star r) (c :: s) →
  ∃ s1 s2, s = s1 ++ s2 ∧ Matches r (c :: s1) ∧ Matches (Star r) s2.
Proof.
  intros H. remember (Star r) as r' eqn:Er. remember (c :: s) as t eqn:Et.
  revert s Et.
  induction H as [| | | | | | |r0 u1 u2 H1 _ H2 IH2]; intros u Et;
    try discriminate.
  injection Er as ->.
  destruct u1 as [|c' u1]; simpl in Et.
  - by apply IH2.
  - injection Et as -> <-. exists u1, u2. done.
Qed.

Lemma deriv_sound c r : ∀ s, Matches (deriv c r) s → Matches r (c :: s).
Proof.
  induction r as [| |c'|ranges|r1 IH1 r2 IH2|r1 IH1 r2 IH2|r IH]; simpl; intros s H.
  - inversion H.
  - inversion H.
  - destruct (Ascii.eqb_spec c c') as [->|]; inversion H. constructor.
  - destruct (in_class ranges c) eqn:E; inversion H. by constructor.
  - destruct (nullable r1) eqn:En.
    + inversion H as [| | | |? ? ? H'|? ? ? H'| |]; subst.
      * inversion H' as [| | |? ? s1 s2 Ha Hb| | | |]; subst.
        change (c :: s1 ++ s2) with ((c :: s1) ++ s2). constructor; auto.
      * change (c :: s) with ([] ++ c :: s). constructor; auto.
        by apply nullable_Matches.
    + inversion H as [| | |? ? s1 s2 Ha Hb| | | |]; subst.
      change (c :: s1 ++ s2) with ((c :: s1) ++ s2). constructor; auto.
  - inversion H; subst; [apply M_Alt_l|apply M_Alt_r]; auto.
  - inversion H as [| | |? ? s1 s2 Ha Hb| | | |]; subst.
    change (c :: s1 ++ s2) with ((c :: s1) ++ s2). constructor; auto.
Qed.

Lemma deriv_complete c r : ∀ s, Matches r (c :: s) → Matches (deriv c r) s.
Proof.
  induction r as [| |c'|ranges|r1 IH1 r2 IH2|r1 IH1 r2 IH2|r IH]; simpl; intros s H.
  - inversion H.
  - inversion H.
  - inversion H; subst. rewrite Ascii.eqb_refl. constructor.
  - inversion H as [| |? ? Hc| | | | |]; subst. rewrite Hc. constructor.
  - inversion H as [| | |? ? s1 s2 Ha Hb Es| | | |]; subst.
    match goal with E : s1 ++ s2 = c :: s |- _ => rename E into Et end.
    destruct s1 as [|c1 s1]; simpl in Et.
    + subst s2. rewrite (Matches_nil_nullable _ _ Ha eq_refl).
      apply M_Alt_r. auto.
    + injection Et as -> <-.
      destruct (nullable r1); [apply M_Alt_l|]; constructor; auto.
  - inversion H; subst; [apply M_Alt_l|apply M_Alt_r]; auto.
  - apply Matches_Star_cons in H as (s1 & s2 & -> & H1 & H2).
    constructor; auto.
Qed.

Lemma matches_spec s : ∀ r, matches r s = true ↔ Matches r s.
Proof.
  induction s as [|c s IH]; intros r; simpl.
  - split; [apply nullable_Matches|]. intros H. by eapply Matches_nil_nullable.
  - rewrite IH. split; [apply deriv_sound|apply deriv_complete].
Qed.

Lemma matches_false s r : matches r s = false ↔ ¬ Matches r s.
Proof. rewrite <- matches_spec. by destruct (matches r s). Qed.

(** A match only holds characters the pattern mentions. *)
Lemma Matches_may_contain r s :
  Matches r s → Forall (λ c, may_contain r c = true) s.
Proof.
  induction 1 as [| | |r1 r2 s1 s2 _ IH1 _ IH2|r1 r2 s _ IH|r1 r2 s _ IH|
                  |r s1 s2 _ IH1 _ IH2]; simpl in *.
  - constructor.
  - repeat constructor. apply Ascii.eqb_refl.
  - by repeat constructor.
  - apply Forall_app. split.
    + eapply Forall_impl; [exact IH1|]. intros c Hc. simpl in Hc. by rewrite Hc.
    + eapply Forall_impl; [exact IH2|]. intros c Hc. simpl in Hc. rewrite Hc.
      apply orb_true_r.
  - eapply Forall_impl; [exact IH|]. intros c Hc. simpl in Hc. by rewrite Hc.
  - eapply Forall_impl; [exact IH|]. intros c Hc. simpl in Hc. rewrite Hc.
    apply orb_true_r.
  - constructor.
  - apply Forall_app. split; done.
Qed.

Lemma Matches_Str t : ∀ s, Matches (Str t) s ↔ s = t.
Proof.
  induction t as [|c t IH]; intros s; simpl.
  - split; [by inversion 1|intros ->; constructor].
  - split.
    + inversion 1 as [| | |? ? s1 s2 Ha Hb| | | |]; subst.
      inversion Ha; subst. apply IH in Hb. by subst.
    + intros ->. change (c :: t) with ([c] ++ t). constructor; [constructor|].
      by apply IH.
Qed.

End RegexLemmas.

(** ** Python string lemmas *)

Section PyLemmas.

Import Py.

(** A string that ends in a non-blank character is left alone. *)
Lemma rstrip_snoc s c : is_space c = false → rstrip (s ++ [c]) = s ++ [c].
Proof.
  intros H. unfold rstrip. rewrite rev_app_distr. simpl.
  rewrite H. simpl. by rewrite rev_involutive.
Qed.

Lemma is_digit_not_space c : is_digit c = true → is_space c = false.
Proof.
  unfold is_digit, in_range, is_space. change (code "0") with 48. change (code "9") with 57.
  intros H. apply andb_true_iff in H as [H1 H2].
  apply Nat.leb_le in H1, H2.
  repeat match goal with
         | |- context [(?a <=? ?b)%nat] => destruct (Nat.leb_spec a b)
         | |- context [(?a =? ?b)%nat] => destruct (Nat.eqb_spec a b)
         end; simpl; try reflexivity; lia.
Qed.

Lemma starts_with_app sep s : starts_with sep (sep ++ s) = true.
Proof. induction sep as [|c sep IH]; simpl; [done|]. by rewrite Ascii.eqb_refl. Qed.

Lemma starts_with_head c0 sep c s : c ≠ c0 → starts_with (c0 :: sep) (c :: s) = false.
Proof.
  intros H. simpl. destruct (Ascii.eqb_spec c0 c) as [->|]; [done|reflexivity].
Qed.

Lemma split_go_skip sep x : ∀ cur s,
  split_go sep (length x) cur (x ++ s) = split_go sep 0 cur s.
Proof. induction x as [|c x IH]; intros cur s; simpl; [by destruct s|apply IH]. Qed.

Lemma split_go_plain c0 sep a : ∀ cur s,
  Forall (λ c, c ≠ c0) a →
  split_go (c0 :: sep) 0 cur (a ++ s) = split_go (c0 :: sep) 0 (rev a ++ cur) s.
Proof.
  induction a as [|c a IH]; intros cur s Ha; [done|].
  apply Forall_cons in Ha as [Hc Ha].
  change ((c :: a) ++ s) with (c :: (a ++ s)).
  cbn [split_go]. rewrite (starts_with_head c0 sep c (a ++ s) Hc).
  rewrite IH by done. simpl. by rewrite <- app_assoc.
Qed.

(** One occurrence of the separator: [split] gives the two sides. *)
Lemma split_once c0 sep a d :
  Forall (λ c, c ≠ c0) a → Forall (λ c, c ≠ c0) d →
  split (c0 :: sep) (a ++ (c0 :: sep) ++ d) = [a; d].
Proof.
  intros Ha Hd. unfold split.
  rewrite split_go_plain by done. rewrite app_nil_r.
  change ((c0 :: sep) ++ d) with (c0 :: (sep ++ d)).
  cbn [split_go].
  change (c0 :: (sep ++ d)) with ((c0 :: sep) ++ d).
  rewrite starts_with_app, rev_involutive.
  f_equal. simpl. rewrite Nat.sub_0_r, split_go_skip.
  rewrite <- (app_nil_r d) at 1. rewrite split_go_plain by done.
  simpl. by rewrite app_nil_r, rev_involutive.
Qed.

Lemma lstrip_blanks ws c s :
  Forall (λ w, is_space w = true) ws → is_space c = false →
  lstrip (ws ++ c :: s) = c :: s.
Proof.
  intros Hws Hc. induction Hws as [|w ws Hw _ IH]; simpl.
  - by rewrite Hc.
  - by rewrite Hw.
Qed.

(** Trailing white space, such as the newline, is what [rstrip] removes. *)
Lemma rstrip_trailing x c ws :
  is_space c = false → Forall (λ w, is_space w = true) ws →
  rstrip ((x ++ [c]) ++ ws) = x ++ [c].
Proof.
  intros Hc Hws. unfold rstrip. rewrite !rev_app_distr. simpl.
  rewrite lstrip_blanks by (by try apply Forall_rev).
  simpl. by rewrite rev_involutive.
Qed.

Lemma to_string_of_string s : to_string (of_string s) = s.
Proof. apply string_of_list_ascii_of_string. Qed.

End PyLemmas.

(** ** [TFModel._parse_hostfile] *)

Section HostfileLemmas.

Import Regex Hostfile.

Lemma in_class_d09 c : in_class [("0", "9")]%char c = Py.is_digit c.
Proof. unfold in_class. simpl. apply orb_false_r. Qed.

Lemma Matches_d09 s : Matches d09 s → ∃ c, s = [c] ∧ Py.is_digit c = true.
Proof.
  inversion 1 as [| |? c Hc| | | | |]; subst. exists c. by rewrite <- in_class_d09.
Qed.

Lemma Matches_digits d : Matches (Rep_1_2 d09) d → slot_digits d.
Proof.
  unfold Rep_1_2, Opt.
  inversion 1 as [| | |? ? s1 s2 H1 H2| | | |]; subst.
  apply Matches_d09 in H1 as (c1 & -> & Hc1).
  inversion H2 as [| | | |? ? ? H3|? ? ? H3| |]; subst.
  - apply Matches_d09 in H3 as (c2 & -> & Hc2).
    split; [simpl; lia|]. by repeat constructor.
  - inversion H3; subst. split; [simpl; lia|]. by repeat constructor.
Qed.

Lemma Matches_suffix sep t :
  Matches (Cat (lit sep) (Rep_1_2 d09)) t →
  ∃ d, t = Py.of_string sep ++ d ∧ slot_digits d.
Proof.
  inversion 1 as [| | |? ? s1 s2 H1 H2| | | |]; subst.
  apply Matches_Str in H1 as ->. apply Matches_digits in H2. eauto.
Qed.

Lemma Matches_with_suffix r sep line :
  Matches (Cat r (Cat (lit sep) (Rep_1_2 d09))) line →
  ∃ a d, line = a ++ Py.of_string sep ++ d ∧ Matches r a ∧ slot_digits d ∧
         Matches (Cat (lit sep) (Rep_1_2 d09)) (Py.of_string sep ++ d).
Proof.
  inversion 1 as [| | |? ? s1 s2 H1 H2| | | |]; subst.
  destruct (Matches_suffix _ _ H2) as (d & -> & Hd). eauto 6.
Qed.

(** Addresses and host names hold neither a blank nor a colon. *)
Lemma Matches_avoids r c s :
  may_contain r c = false → Matches r s → Forall (λ x, x ≠ c) s.
Proof.
  intros Hc H. apply Matches_may_contain in H.
  eapply Forall_impl; [exact H|]. simpl. intros x Hx ->. congruence.
Qed.

Lemma digits_avoid c d :
  Py.is_digit c = false → slot_digits d → Forall (λ x, x ≠ c) d.
Proof.
  intros Hc [_ Hd]. eapply Forall_impl; [exact Hd|]. simpl. intros x Hx ->.
  congruence.
Qed.

Lemma split_slots r a d :
  may_contain r " " = false → Matches r a → slot_digits d →
  Py.split slots_sep (a ++ slots_sep ++ d) = [a; d].
Proof.
  intros Hr Ha Hd. change slots_sep with (" "%char :: Py.of_string "slots=").
  apply split_once; [by eapply Matches_avoids|by apply digits_avoid].
Qed.

Lemma split_colon r a d :
  may_contain r ":" = false → Matches r a → slot_digits d →
  Py.split colon_sep (a ++ colon_sep ++ d) = [a; d].
Proof.
  intros Hr Ha Hd. change colon_sep with (":"%char :: []).
  apply split_once; [by eapply Matches_avoids|by apply digits_avoid].
Qed.

(** What the name of the first matching pattern tells about the line. *)
Lemma first_match_inv line k :
  first_match valid_regexes line = Some k →
  match k with
  | valid_ip => Matches ip line
  | valid_ip_with_slot => Matches (Cat ip slots_suffix) line
  | valid_ip_with_colon => Matches (Cat ip colon_suffix) line
  | valid_hostname => ¬ Matches ip line ∧ Matches hostname line
  | valid_hostname_with_slot =>
      ¬ Matches (Cat ip slots_suffix) line ∧ Matches (Cat hostname slots_suffix) line
  | valid_hostname_with_colon =>
      ¬ Matches (Cat ip colon_suffix) line ∧ Matches (Cat hostname colon_suffix) line
  end.
Proof.
  unfold valid_regexes. cbn [first_match].
  destruct (matches ip line) eqn:E1;
    [intros [= <-]; by apply matches_spec|].
  destruct (matches (Cat ip slots_suffix) line) eqn:E2;
    [intros [= <-]; by apply matches_spec|].
  destruct (matches (Cat ip colon_suffix) line) eqn:E3;
    [intros [= <-]; by apply matches_spec|].
  destruct (matches hostname line) eqn:E4;
    [intros [= <-]; split; [by apply matches_false|by apply matches_spec]|].
  destruct (matches (Cat hostname slots_suffix) line) eqn:E5;
    [intros [= <-]; split; [by apply matches_false|by apply matches_spec]|].
  destruct (matches (Cat hostname colon_suffix) line) eqn:E6;
    [intros [= <-]; split; [by apply matches_false|by apply matches_spec]|].
  discriminate.
Qed.

Lemma first_match_None line :
  first_match valid_regexes line = None ↔ matches_none line.
Proof.
  unfold matches_none, valid_regexes. cbn [first_match]. split.
  - intros H.
    repeat match type of H with
           | (if matches ?r line then _ else _) = None =>
               destruct (matches r line) eqn:?; [discriminate|]
           end.
    repeat constructor; simpl; by apply matches_false.
  - intros H.
    repeat match type of H with
           | Forall _ (_ :: _) =>
               apply Forall_cons in H as [?%matches_false H]
           end.
    simpl in *. by repeat match goal with E : matches _ _ = false |- _ => rewrite E; clear E end.
Qed.

End HostfileLemmas.

Section HostfileProperties.

Import Regex Hostfile.

Variable gethostbyname : Py.str → result Py.str.

Local Abbreviation append_line := (Hostfile.append_line gethostbyname).
Local Abbreviation fill := (Hostfile.fill gethostbyname).
Local Abbreviation parse := (Hostfile._parse_hostfile gethostbyname).
Local Abbreviation normalized := (Hostfile.normalized gethostbyname).

Local Abbreviation resolver_raises := (Hostfile.resolver_raises gethostbyname).

Lemma append_line_spec line k info :
  first_match valid_regexes line = Some k →
  (∃ a s,
     append_line line k info
     = Ok {| ip_addresses := ip_addresses info ++ [a]; slots := slots info ++ [s] |} ∧
     normalized line a s) ∨
  (∃ e, append_line line k info = Raise e ∧ resolver_raises [line] e).
Proof.
  intros Hk. apply first_match_inv in Hk.
  assert (∀ h e, names_host line h → gethostbyname h = Raise e →
                 resolver_raises [line] e) as Hraise.
  { intros h e Hh He. exists line, h. split; [apply list_elem_of_here|done]. }
  destruct k; unfold Hostfile.append_line.
  - left. exists line, (SlotInt 0). split; [done|]. by constructor.
  - apply Matches_with_suffix in Hk as (a & d & -> & Ha & Hd & _).
    fold slots_sep. rewrite (split_slots ip a d) by done. simpl.
    left. exists a, (SlotStr d). split; [done|]. by constructor.
  - apply Matches_with_suffix in Hk as (a & d & -> & Ha & Hd & _).
    fold colon_sep. rewrite (split_colon ip a d) by done. simpl.
    left. exists a, (SlotStr d). split; [done|]. by constructor.
  - destruct Hk as [Hn Hh].
    destruct (gethostbyname line) as [a|e] eqn:Eg; simpl.
    + left. exists a, (SlotInt 0). split; [done|]. by constructor.
    + right. exists e. split; [done|]. apply (Hraise line); [|done].
      split; [done|]. split; [done|]. by left.
  - destruct Hk as [Hn Hh].
    apply Matches_with_suffix in Hh as (h & d & -> & Hh & Hd & Hs).
    fold slots_sep. rewrite (split_slots hostname h d) by done. simpl.
    assert (¬ Matches ip h) as Hnip.
    { intros Hip. apply Hn. by constructor. }
    destruct (gethostbyname h) as [a|e] eqn:Eg; simpl.
    + left. exists a, (SlotStr d). split; [done|]. by constructor.
    + right. exists e. split; [done|]. apply (Hraise h); [|done].
      split; [done|]. split; [done|]. right. exists d. split; [done|]. by left.
  - destruct Hk as [Hn Hh].
    apply Matches_with_suffix in Hh as (h & d & -> & Hh & Hd & Hs).
    fold colon_sep. rewrite (split_colon hostname h d) by done. simpl.
    assert (¬ Matches ip h) as Hnip.
    { intros Hip. apply Hn. by constructor. }
    destruct (gethostbyname h) as [a|e] eqn:Eg; simpl.
    + left. exists a, (SlotStr d). split; [done|]. by constructor.
    + right. exists e. split; [done|]. apply (Hraise h); [|done].
      split; [done|]. split; [done|]. right. exists d. split; [done|]. by right.
Qed.

Lemma fill_spec lines : ∀ ks info,
  Forall2 (λ l k, first_match valid_regexes l = Some k) lines ks →
  (∃ ips ss,
     fill (zip lines ks) info
     = Ok {| ip_addresses := ip_addresses info ++ ips; slots := slots info ++ ss |} ∧
     Forall3 normalized lines ips ss) ∨
  (∃ e, fill (zip lines ks) info = Raise e ∧ resolver_raises lines e).
Proof.
  induction lines as [|line lines IH]; intros ks info H.
  - apply Forall2_nil_inv_l in H as ->. left. exists [], []. simpl.
    rewrite !app_nil_r. split; [by destruct info|constructor].
  - apply Forall2_cons_inv_l in H as (k & ks' & Hk & Hks & ->). simpl.
    destruct (append_line_spec line k info Hk) as [(a & s & -> & Hn)|(e & -> & He)].
    + simpl.
      destruct (IH ks' {| ip_addresses := ip_addresses info ++ [a];
                          slots := slots info ++ [s] |} Hks)
        as [(ips & ss & -> & Hall)|(e & -> & He)]; simpl.
      * left. exists (a :: ips), (s :: ss). rewrite <- !app_assoc. simpl.
        split; [done|]. by constructor.
      * right. exists e. split; [done|].
        destruct He as (l & h & Hl & Hh & Hg). exists l, h.
        split; [by apply list_elem_of_further|done].
    + right. exists e. split; [done|].
      destruct He as (l & h & Hl & Hh & Hg). exists l, h.
      apply list_elem_of_singleton in Hl as ->.
      split; [apply list_elem_of_here|done].
Qed.

Lemma match_lines_accepted lines :
  Forall accepted lines →
  ∃ ks, match_lines lines = Ok ks ∧
        Forall2 (λ l k, first_match valid_regexes l = Some k) lines ks.
Proof.
  induction 1 as [|line lines [k Hk] _ (ks & IH & Hks)]; cbn [match_lines].
  - exists []. split; [done|constructor].
  - rewrite Hk, IH. exists (k :: ks). split; [done|]. by constructor.
Qed.

Lemma match_lines_rejects pre bad post :
  Forall accepted pre → first_match valid_regexes bad = None →
  match_lines (pre ++ bad :: post)
  = Raise (Exn ValueError ("Invalid line in the hostfile: " +:+ Py.to_string bad)).
Proof.
  intros Hpre Hbad.
  induction Hpre as [|line pre [k Hk] _ IH]; cbn [app match_lines].
  - by rewrite Hbad.
  - by rewrite Hk, IH.
Qed.

(** Every list of lines is all accepted, or has a first rejected line. *)
Lemma first_rejected lines :
  Forall accepted lines ∨
  ∃ pre bad post, lines = pre ++ bad :: post ∧ Forall accepted pre ∧
                  first_match valid_regexes bad = None.
Proof.
  induction lines as [|line lines IH]; [left; constructor|].
  destruct (first_match valid_regexes line) as [k|] eqn:Hk.
  - destruct IH as [IH|(pre & bad & post & -> & Hpre & Hbad)].
    + left. constructor; [by exists k|done].
    + right. exists (line :: pre), bad, post. split; [done|].
      split; [|done]. constructor; [by exists k|done].
  - right. exists [], line, lines. split; [done|]. split; [constructor|done].
Qed.

Lemma parse_rejects file_lines pre bad post :
  map Py.rstrip file_lines = pre ++ bad :: post →
  Forall accepted pre → first_match valid_regexes bad = None →
  parse file_lines
  = Raise (Exn ValueError ("Invalid line in the hostfile: " +:+ Py.to_string bad)).
Proof.
  intros Hl Hpre Hbad. unfold Hostfile._parse_hostfile. rewrite Hl.
  by rewrite (match_lines_rejects pre bad post Hpre Hbad).
Qed.

Lemma parse_accepted file_lines :
  Forall accepted (map Py.rstrip file_lines) →
  (∃ info,
     parse file_lines = Ok info ∧
     Forall3 normalized (map Py.rstrip file_lines) (ip_addresses info) (slots info)) ∨
  (∃ e, parse file_lines = Raise e ∧ resolver_raises (map Py.rstrip file_lines) e).
Proof.
  intros H. unfold Hostfile._parse_hostfile.
  destruct (match_lines_accepted _ H) as (ks & -> & Hks). simpl.
  destruct (fill_spec _ ks {| ip_addresses := []; slots := [] |} Hks)
    as [(ips & ss & -> & Hall)|(e & -> & He)]; simpl.
  - left. eexists. split; [done|]. done.
  - right. eauto.
Qed.

Lemma not_accepted line : ¬ accepted line ↔ matches_none line.
Proof.
  rewrite <- first_match_None. unfold accepted.
  destruct (first_match valid_regexes line); split; intros H;
    try done; try (by destruct H); by intros [? ?].
Qed.

(** C5: when some line of the hostfile (read as the code reads it, with the
    trailing white space removed) is in the language of none of the six
    patterns, parsing raises the [ValueError] "Invalid line in the hostfile: "
    followed by the first such line, whatever the resolver does, and so
    returns no result. *)
Theorem parse_hostfile_invalid_line file_lines :
  Exists matches_none (map Py.rstrip file_lines) →
  ∃ pre bad post,
    map Py.rstrip file_lines = pre ++ bad :: post ∧
    Forall accepted pre ∧ matches_none bad ∧
    parse file_lines
    = Raise (Exn ValueError ("Invalid line in the hostfile: " +:+ Py.to_string bad)).
Proof.
  intros Hex.
  destruct (first_rejected (map Py.rstrip file_lines))
    as [Hall|(pre & bad & post & Hl & Hpre & Hbad)].
  - exfalso. apply Exists_exists in Hex as (l & Hin & Hl).
    rewrite Forall_forall in Hall. apply not_accepted in Hl. by apply Hl, Hall.
  - exists pre, bad, post. split; [done|]. split; [done|].
    split; [by apply first_match_None|]. by eapply parse_rejects.
Qed.

(** Every line accepted: the parse returns the normalisation of each line, in
    order, unless the resolver raises. *)
Lemma parse_accepted_total file_lines :
  Forall accepted (map Py.rstrip file_lines) →
  (∀ line h, line ∈ map Py.rstrip file_lines → names_host line h →
             is_ok (gethostbyname h) = true) →
  is_ok (parse file_lines) = true.
Proof.
  intros Hall Hres.
  destruct (parse_accepted file_lines Hall)
    as [(info & -> & _)|(e & _ & l & h & Hl & Hh & He)]; [done|].
  specialize (Hres l h Hl Hh). by rewrite He in Hres.
Qed.

(** What a parse of accepted lines gives: two lists, ['ip_addresses'] and
    ['slots'], with one element per line in file order, each the
    normalisation of its line; it returns whenever the resolver answers for
    the host name of every line, and otherwise fails with the error the
    resolver raised for one of them. *)
Lemma parse_hostfile_entries file_lines :
  Forall accepted (map Py.rstrip file_lines) →
  (∀ info,
     parse file_lines = Ok info →
     Forall3 normalized (map Py.rstrip file_lines) (ip_addresses info) (slots info) ∧
     length (ip_addresses info) = length file_lines ∧
     length (slots info) = length file_lines) ∧
  (∀ e, parse file_lines = Raise e → resolver_raises (map Py.rstrip file_lines) e) ∧
  ((∀ line h, line ∈ map Py.rstrip file_lines → names_host line h →
              is_ok (gethostbyname h) = true) →
   ∃ info, parse file_lines = Ok info).
Proof.
  intros Hall. split; [|split].
  - intros info Hp.
    destruct (parse_accepted file_lines Hall) as [(info' & Hp' & H3)|(e & Hp' & _)];
      rewrite Hp in Hp'; [|discriminate].
    injection Hp' as <-. split; [done|].
    pose proof (Forall3_length_lm _ _ _ _ H3) as H1.
    pose proof (Forall3_length_lr _ _ _ _ H3) as H2.
    rewrite length_map in H1, H2. done.
  - intros e Hp.
    destruct (parse_accepted file_lines Hall) as [(info' & Hp' & _)|(e' & Hp' & He)];
      rewrite Hp in Hp'; [discriminate|].
    by injection Hp' as <-.
  - intros Hres. pose proof (parse_accepted_total file_lines Hall Hres) as Hok.
    destruct (parse file_lines) as [info|]; [eauto|discriminate].
Qed.

Lemma digit_suffix_clash (x p d y n : Py.str) (c : ascii) :
  Py.is_digit c = false → slot_digits d →
  (3 ≤ length n)%nat → Forall (λ c, Py.is_digit c = true) n →
  x ++ (p ++ [c]) ++ d ≠ y ++ n.
Proof.
  intros Hc [[_ Hlen] _] Hn Hdig Heq.
  apply (f_equal (@rev ascii)) in Heq.
  rewrite !rev_app_distr in Heq. simpl in Heq.
  assert ((rev n ++ rev y) !! length (rev d) = Some c) as Hl.
  { rewrite <- Heq, <- !app_assoc. simpl. by apply list_lookup_middle. }
  rewrite lookup_app_l in Hl by (rewrite !length_rev; lia).
  apply Forall_rev in Hdig.
  rewrite Forall_lookup in Hdig. specialize (Hdig _ _ Hl). simpl in Hdig.
  congruence.
Qed.

Lemma suffix_rejects r sep c line y n :
  Py.of_string sep = Py.of_string (String.substring 0 (String.length sep - 1) sep) ++ [c] →
  Py.is_digit c = false →
  (3 ≤ length n)%nat → Forall (λ c, Py.is_digit c = true) n →
  line = y ++ n →
  ¬ Matches (Cat r (Cat (lit sep) (Rep_1_2 d09))) line.
Proof.
  intros Hsep Hc Hn Hdig -> H.
  apply Matches_with_suffix in H as (a & d & Heq & _ & Hd & _).
  rewrite Hsep in Heq. symmetry in Heq. revert Heq.
  by apply digit_suffix_clash.
Qed.

Lemma long_slot_matches_none a sep n :
  sep = slots_sep ∨ sep = colon_sep →
  (3 ≤ length n)%nat → Forall (λ c, Py.is_digit c = true) n →
  matches_none (a ++ sep ++ n).
Proof.
  intros Hsep Hn Hdig.
  assert (∀ r, may_contain r " " = false → may_contain r ":" = false →
               ¬ Matches r (a ++ sep ++ n)) as Hplain.
  { intros r Hb Hc H.
    destruct Hsep as [-> | ->].
    - apply (Matches_avoids r " " _ Hb) in H.
      apply Forall_app in H as [_ H]. apply Forall_cons in H as [H _]. done.
    - apply (Matches_avoids r ":" _ Hc) in H.
      apply Forall_app in H as [_ H]. apply Forall_cons in H as [H _]. done. }
  assert (∀ r, ¬ Matches (Cat r slots_suffix) (a ++ sep ++ n)) as Hslot.
  { intros r. apply (suffix_rejects r " slots=" "=" _ (a ++ sep) n);
      [reflexivity|reflexivity|done|done|by rewrite <- app_assoc]. }
  assert (∀ r, ¬ Matches (Cat r colon_suffix) (a ++ sep ++ n)) as Hcolon.
  { intros r. apply (suffix_rejects r ":" ":" _ (a ++ sep) n);
      [reflexivity|reflexivity|done|done|by rewrite <- app_assoc]. }
  unfold matches_none, valid_regexes.
  repeat constructor; simpl; auto.
Qed.

Lemma digits_Matches d : slot_digits d → Matches (Rep_1_2 d09) d.
Proof.
  intros [[Hlo Hhi] Hd]. unfold Rep_1_2, Opt.
  destruct d as [|c1 [|c2 [|c3 d]]]; simpl in *; try lia.
  - apply Forall_cons in Hd as [H1 _].
    change [c1] with ([c1] ++ []). constructor.
    + constructor. by rewrite in_class_d09.
    + apply M_Alt_r. constructor.
  - apply Forall_cons in Hd as [H1 Hd]. apply Forall_cons in Hd as [H2 _].
    change [c1; c2] with ([c1] ++ [c2]). constructor.
    + constructor. by rewrite in_class_d09.
    + apply M_Alt_l. constructor. by rewrite in_class_d09.
Qed.

(** One or two digits after an address or a host name are accepted: two is
    the exact limit. *)
Lemma short_slot_accepted r a sep d :
  r = ip ∨ r = hostname → Matches r a →
  sep = slots_sep ∨ sep = colon_sep → slot_digits d →
  accepted (a ++ sep ++ d).
Proof.
  intros Hr Ha Hsep Hd. unfold accepted.
  destruct (first_match valid_regexes (a ++ sep ++ d)) as [k|] eqn:E; [by eexists|].
  exfalso. apply first_match_None in E. unfold matches_none, valid_regexes in E.
  assert (∀ s, Matches (Cat (lit s) (Rep_1_2 d09)) (Py.of_string s ++ d)) as Hsuf.
  { intros s. constructor; [by apply Matches_Str|by apply digits_Matches]. }
  repeat match type of E with
         | Forall _ (_ :: _) => apply Forall_cons in E as [? E]
         end.
  simpl in *.
  destruct Hr as [-> | ->], Hsep as [-> | ->];
    match goal with
    | H : ¬ Matches (Cat ?r ?s) _ |- _ =>
        apply H; constructor; [exact Ha|apply Hsuf]
    end.
Qed.

(** C10: a line [A slots=N] or [A:N] whose [N] has three or more digits is
    in the language of none of the six patterns, so a hostfile that holds
    such a line (followed by its newline or other trailing white space)
    fails to parse with a [ValueError]; the error quotes that line when the
    lines before it are all accepted. *)
Theorem slot_count_at_most_two_digits pre a sep n ws post :
  sep = slots_sep ∨ sep = colon_sep →
  (3 ≤ length n)%nat → Forall (λ c, Py.is_digit c = true) n →
  Forall (λ w, Py.is_space w = true) ws →
  matches_none (a ++ sep ++ n) ∧
  (∃ msg, parse (pre ++ ((a ++ sep ++ n) ++ ws) :: post) = Raise (Exn ValueError msg)) ∧
  (Forall accepted (map Py.rstrip pre) →
   parse (pre ++ ((a ++ sep ++ n) ++ ws) :: post)
   = Raise (Exn ValueError
       ("Invalid line in the hostfile: " +:+ Py.to_string (a ++ sep ++ n)))).
Proof.
  intros Hsep Hn Hdig Hws.
  pose proof (long_slot_matches_none a sep n Hsep Hn Hdig) as Hnone.
  assert (Py.rstrip ((a ++ sep ++ n) ++ ws) = a ++ sep ++ n) as Hstrip.
  { destruct (exists_last (l := n)) as (n' & c & ->);
      [by destruct n; simpl in Hn; [lia|]|].
    apply Forall_app in Hdig as [_ Hc]. apply Forall_cons in Hc as [Hc _].
    replace (a ++ sep ++ n' ++ [c]) with ((a ++ sep ++ n') ++ [c])
      by (by rewrite <- !app_assoc).
    apply rstrip_trailing; [by apply is_digit_not_space|done]. }
  split; [done|].
  assert (map Py.rstrip (pre ++ ((a ++ sep ++ n) ++ ws) :: post)
          = map Py.rstrip pre ++ (a ++ sep ++ n) :: map Py.rstrip post) as Hmap.
  { by rewrite map_app, map_cons, Hstrip. }
  split.
  - destruct (first_rejected (map Py.rstrip (pre ++ ((a ++ sep ++ n) ++ ws) :: post)))
      as [Hall|(p & bad & q & Hl & Hp & Hbad)].
    + exfalso. rewrite Hmap in Hall.
      apply Forall_app in Hall as [_ Hall]. apply Forall_cons in Hall as [Hacc _].
      by apply not_accepted in Hnone.
    + eexists. by eapply parse_rejects.
  - intros Hpre. eapply parse_rejects; [exact Hmap|done|by apply first_match_None].
Qed.

End HostfileProperties.

Section HostfileExamples.

Import Regex Hostfile.

Lemma parse_hostfile_invalid_line_witness :
  ∃ pre bad post,
    map Py.rstrip (map Py.of_string ["127.0.0.1 slots=2"; "node one  "; "??"])
    = pre ++ bad :: post ∧
    Forall accepted pre ∧ matches_none bad ∧
    _parse_hostfile no_dns (map Py.of_string ["127.0.0.1 slots=2"; "node one  "; "??"])
    = Raise (Exn ValueError ("Invalid line in the hostfile: " +:+ Py.to_string bad)).
Proof.
  apply parse_hostfile_invalid_line.
  apply Exists_cons_tl, Exists_cons_hd, first_match_None.
  vm_compute. reflexivity.
Defined.

Example parse_hostfile_invalid_line_message :
  _parse_hostfile no_dns (map Py.of_string ["127.0.0.1 slots=2"; "node one  "; "??"])
  = Raise (Exn ValueError "Invalid line in the hostfile: node one").
Proof. vm_compute. reflexivity. Qed.

(** C6: the slot count of a line with slots is not converted.  On the
    hostfile whose only line is [127.0.0.1 slots=2], whatever the resolver
    does, the parse returns the address [127.0.0.1] with the slot value
    ['2'], a string, where the claim gives the integer 2; for the bare line
    [127.0.0.1] the same function returns the integer [0]. *)
Theorem slot_count_left_as_text gethostbyname :
  _parse_hostfile gethostbyname one_ip_with_slots
  = Ok {| ip_addresses := [Py.of_string "127.0.0.1"];
          slots := [SlotStr (Py.of_string "2")] |} ∧
  _parse_hostfile gethostbyname [Py.of_string "127.0.0.1"]
  = Ok {| ip_addresses := [Py.of_string "127.0.0.1"];
          slots := [SlotInt 0] |}.
Proof.
  split.
  - vm_compute. reflexivity.
  - vm_compute. reflexivity.
Qed.

Example parse_six_forms :
  ∃ info,
    _parse_hostfile example_dns six_forms = Ok info ∧
    Forall3 (normalized example_dns) (map Py.rstrip six_forms)
            (ip_addresses info) (slots info) ∧
    slots info = [SlotInt 0; SlotStr (Py.of_string "2"); SlotStr (Py.of_string "2");
                  SlotInt 0; SlotStr (Py.of_string "2"); SlotStr (Py.of_string "2")].
Proof.
  assert (Forall accepted (map Py.rstrip six_forms)) as Hacc.
  { repeat constructor; eexists; vm_compute; reflexivity. }
  destruct (parse_hostfile_entries example_dns six_forms Hacc) as (H1 & _ & _).
  assert (∃ info, _parse_hostfile example_dns six_forms = Ok info) as [info Hp].
  { eexists. vm_compute. reflexivity. }
  exists info. split; [exact Hp|]. split; [exact (proj1 (H1 info Hp))|].
  clear H1 Hacc. vm_compute in Hp. injection Hp as <-. reflexivity.
Defined.

Lemma slot_count_at_most_two_digits_witness :
  _parse_hostfile no_dns
    [Py.of_string "127.0.0.1";
     (Py.of_string "hostname-example.com" ++ colon_sep ++ Py.of_string "123") ++ newline;
     Py.of_string "10.0.0.2"]
  = Raise (Exn ValueError "Invalid line in the hostfile: hostname-example.com:123").
Proof.
  refine (proj2 (proj2 (slot_count_at_most_two_digits no_dns
            [Py.of_string "127.0.0.1"] (Py.of_string "hostname-example.com")
            colon_sep (Py.of_string "123") newline [Py.of_string "10.0.0.2"]
            (or_intror eq_refl) _ _ _)) _).
  - simpl. lia.
  - repeat constructor.
  - repeat constructor.
  - repeat constructor. eexists. vm_compute. reflexivity.
Defined.

End HostfileExamples.

(** ** The quantization workflow *)

Section QuantizeLemmas.

Import Quantize.

Lemma check_int_rejects name lowest v :
  rejected_int lowest v → check_int name lowest (Some v) = Raise (usage_error name).
Proof.
  unfold rejected_int, check_int. intros H.
  destruct (as_int v) as [z|]; [|done].
  specialize (H z eq_refl). destruct (Z.leb_spec lowest z); [lia|done].
Qed.

Lemma check_unit_interval_rejects name v :
  rejected_unit_interval v →
  check_unit_interval name (Some v) = Raise (usage_error name).
Proof.
  unfold rejected_unit_interval, check_unit_interval. intros H.
  destruct (as_float v) as [q|]; [|done].
  specialize (H q eq_refl).
  destruct (Qle_bool 0 q && Qle_bool q 1) eqn:E; [|done].
  apply andb_true_iff in E as [E1 E2].
  apply Qle_bool_iff in E1, E2. tauto.
Qed.

Lemma check_int_raises name lowest v e :
  check_int name lowest v = Raise e → exn_cls e = UsageError.
Proof.
  unfold check_int. destruct v as [f|]; [|discriminate].
  destruct (as_int f) as [z|]; [destruct (_ <=? _)%Z|];
    try discriminate; by intros [= <-].
Qed.

Lemma check_unit_interval_raises name v e :
  check_unit_interval name v = Raise e → exn_cls e = UsageError.
Proof.
  unfold check_unit_interval. destruct v as [f|]; [|discriminate].
  destruct (as_float f) as [q|]; [destruct (_ && _)|];
    try discriminate; by intros [= <-].
Qed.

Lemma validate_rejects fs args :
  (∃ v, max_trials args = Some v ∧ rejected_int 1 v) ∨
  (∃ v, timeout args = Some v ∧ rejected_int 0 v) ∨
  (∃ v, accuracy_criterion args = Some v ∧ rejected_unit_interval v) →
  ∃ e, validate fs args = Raise e ∧ exn_cls e = UsageError.
Proof.
  intros H. unfold validate.
  destruct (check_directory "--model-dir" fs (model_dir args)) as [[]|e] eqn:E1;
    [|unfold check_directory in E1; destruct (FS.isdir _ _);
      [discriminate|injection E1 as <-; by eexists]].
  destruct (check_directory "--dataset-dir" fs (dataset_dir args)) as [[]|e] eqn:E2;
    [|unfold check_directory in E2; destruct (FS.isdir _ _);
      [discriminate|injection E2 as <-; by eexists]].
  cbn [mbind result_bind].
  destruct (check_int "--batch-size" 1 (batch_size args)) as [b|e] eqn:E3;
    [|exists e; split; [done|by eapply check_int_raises]].
  cbn [mbind result_bind].
  destruct (check_unit_interval "--accuracy-criterion" (accuracy_criterion args))
    as [a|e] eqn:E4; [|exists e; split; [done|by eapply check_unit_interval_raises]].
  cbn [mbind result_bind].
  destruct (check_int "--timeout" 0 (timeout args)) as [t|e] eqn:E5;
    [|exists e; split; [done|by eapply check_int_raises]].
  cbn [mbind result_bind].
  destruct (check_int "--max-trials" 1 (max_trials args)) as [m|e] eqn:E6;
    [|exists e; split; [done|by eapply check_int_raises]].
  exfalso. destruct H as [(v & Hv & Hr)|[(v & Hv & Hr)|(v & Hv & Hr)]].
  - rewrite Hv, (check_int_rejects _ _ _ Hr) in E6. discriminate.
  - rewrite Hv, (check_int_rejects _ _ _ Hr) in E5. discriminate.
  - rewrite Hv, (check_unit_interval_rejects _ _ Hr) in E4. discriminate.
Qed.

Lemma candidate_name_versioned parent name version :
  TFExport.is_numeral version = true →
  candidate_name (parent ++ [name; version]) = name.
Proof.
  intros Hv. unfold candidate_name. rewrite rev_app_distr. simpl. by rewrite Hv.
Qed.

End QuantizeLemmas.

Section QuantizeProperties.

Import Quantize.

Variable get_model : string → FrameworkType → result ModelHandle.
Variable load_dataset : FS.path → UseCaseType → FrameworkType → result DatasetHandle.

Local Abbreviation quantize_command := (Quantize.quantize_command get_model load_dataset).
Local Abbreviation acquires := (Quantize.acquires get_model load_dataset).

(** C9: a [--max-trials] value that is not an integer of at least 1, a
    [--timeout] value that is not an integer of at least 0, or an
    [--accuracy-criterion] value that is not a number of [0,1] ends the
    invocation with exit code 2, with no call made on a model or dataset
    collaborator and the file system untouched. *)
Theorem invalid_numeric_option_exit_2 args fs :
  (∃ v, max_trials args = Some v ∧ rejected_int 1 v) ∨
  (∃ v, timeout args = Some v ∧ rejected_int 0 v) ∨
  (∃ v, accuracy_criterion args = Some v ∧ rejected_unit_interval v) →
  exit_code (quantize_command args fs) = 2%Z ∧
  calls (quantize_command args fs) = [] ∧
  fs_after (quantize_command args fs) = fs.
Proof.
  intros H. destruct (validate_rejects fs args H) as (e & He & _).
  unfold Quantize.quantize_command. by rewrite He.
Qed.

(** C7: with valid arguments, a model directory that holds neither
    [saved_model.pb] nor [model.pt] ends the invocation with exit code 1 and
    the message "Quantization is currently only implemented for TensorFlow
    saved_model.pb and PyTorch model.pt models." in its output. *)
Theorem unsupported_model_file_exit_1 args fs params :
  validate fs args = Ok params →
  FS.isfile fs (model_dir args ++ ["saved_model.pb"]) = false →
  FS.isfile fs (model_dir args ++ ["model.pt"]) = false →
  exit_code (quantize_command args fs) = 1%Z ∧
  In unsupported_model_file (output (quantize_command args fs)) ∧
  calls (quantize_command args fs) = [].
Proof.
  intros Hv Hpb Hpt. unfold Quantize.quantize_command, detect_framework.
  rewrite Hv, Hpb, Hpt. simpl. auto.
Qed.

Lemma calls_after_identity args fs params fw :
  validate fs args = Ok params →
  detect_framework fs (model_dir args) = Ok fw →
  ∃ rest,
    calls (quantize_command args fs)
    = GetModel (candidate_name (model_dir args)) fw :: rest ∧
    count is_get_model rest = 0.
Proof.
  intros Hv Hd. run_all; simpl; eexists; split; reflexivity.
Qed.

(** C3: with valid arguments and a model directory [<...>/<name>/<version>]
    whose leaf is a numeral, the model name is [<name>], the framework is
    TensorFlow when the directory holds [saved_model.pb] and PyTorch when it
    holds [model.pt] (and no [saved_model.pb]), and the model factory is
    called exactly once, first of all calls, with that name and framework. *)
Theorem model_identity_from_directory args fs params parent name version fw :
  validate fs args = Ok params →
  model_dir args = parent ++ [name; version] →
  TFExport.is_numeral version = true →
  (FS.isfile fs (model_dir args ++ ["saved_model.pb"]) = true ∧ fw = TENSORFLOW) ∨
  (FS.isfile fs (model_dir args ++ ["saved_model.pb"]) = false ∧
   FS.isfile fs (model_dir args ++ ["model.pt"]) = true ∧ fw = PYTORCH) →
  candidate_name (model_dir args) = name ∧
  detect_framework fs (model_dir args) = Ok fw ∧
  head (calls (quantize_command args fs)) = Some (GetModel name fw) ∧
  count is_get_model (calls (quantize_command args fs)) = 1.
Proof.
  intros Hv Hdir Hver Hfw.
  assert (candidate_name (model_dir args) = name) as Hname.
  { rewrite Hdir. by apply candidate_name_versioned. }
  assert (detect_framework fs (model_dir args) = Ok fw) as Hd.
  { unfold detect_framework.
    destruct Hfw as [[-> ->]|(-> & -> & ->)]; reflexivity. }
  destruct (calls_after_identity args fs params fw Hv Hd) as (rest & Hc & Hrest).
  rewrite Hc, Hname. unfold count in *. simpl. by rewrite Hrest.
Qed.

Lemma no_generation_with_config args fs p :
  inc_config args = Some p →
  count is_write_config (calls (quantize_command args fs)) = 0 ∧
  (∀ src dst cfg,
     In (QuantizeModel src dst cfg) (calls (quantize_command args fs)) → cfg = p).
Proof.
  intros Hp. split.
  - run_all; reflexivity.
  - intros src dst cfg. run_all; simpl; intros H;
      repeat (destruct H as [H|H]; try discriminate H; try (by injection H)); done.
Qed.

Lemma quantize_with_config args fs p :
  inc_config args = Some p → acquires args fs →
  ∃ dst, In (QuantizeModel (model_dir args) dst p) (calls (quantize_command args fs)).
Proof.
  intros Hp (params & fw & model & dataset & Hv & Hd & Hm & Hl).
  run_all; simpl; eexists; eauto 10.
Qed.

Lemma one_generation_without_config args fs :
  inc_config args = None → acquires args fs →
  count is_write_config (calls (quantize_command args fs)) = 1.
Proof.
  intros Hp (params & fw & model & dataset & Hv & Hd & Hm & Hl).
  run_all; reflexivity.
Qed.

Lemma success_acquires args fs :
  exit_code (quantize_command args fs) = 0%Z → acquires args fs.
Proof.
  unfold Quantize.acquires, Quantize.quantize_command, run_quantize.
  destruct (validate fs args) as [params|]; [|discriminate].
  destruct (detect_framework fs (model_dir args)) as [fw|]; [|discriminate].
  destruct (get_model _ fw) as [model|] eqn:Hm; [|discriminate].
  destruct (load_dataset _ _ _) as [dataset|] eqn:Hl; [|discriminate].
  intros _. by exists params, fw, model, dataset.
Qed.

Lemma second_generation_fails supported params_ok supported' params_ok' fs0 fs1 path :
  write_inc_config_file_contract supported params_ok fs0 path false = Ok fs1 →
  write_inc_config_file_contract supported' params_ok' fs1 path false
  = Raise (Exn FileExistsError "A file already exists at the config file path").
Proof.
  unfold write_inc_config_file_contract. intros H.
  destruct (FS.exists_ fs0 path && negb false); [discriminate|].
  destruct (negb supported); [discriminate|].
  destruct (negb params_ok); [discriminate|].
  destruct (FS.put fs0 path FS.File) as [m|] eqn:Ep; [|discriminate].
  injection H as <-. apply lookup_put in Ep.
  unfold FS.exists_. by rewrite Ep.
Qed.

(** C2: when a config path is supplied, no invocation calls
    [write_inc_config_file], and [quantize] receives the supplied path; when
    none is supplied, an invocation that has its model and dataset (in
    particular one that exits with 0) calls [write_inc_config_file] exactly
    once; and under the contract of [write_inc_config_file] a second call at
    the path of a successful first one, without overwrite, raises
    [FileExistsError]. *)
Theorem config_generation_rule args fs :
  (∀ p, inc_config args = Some p →
     count is_write_config (calls (quantize_command args fs)) = 0 ∧
     (∀ src dst cfg,
        In (QuantizeModel src dst cfg) (calls (quantize_command args fs)) → cfg = p) ∧
     (acquires args fs →
      ∃ dst, In (QuantizeModel (model_dir args) dst p) (calls (quantize_command args fs)))) ∧
  (inc_config args = None → acquires args fs →
     count is_write_config (calls (quantize_command args fs)) = 1) ∧
  (inc_config args = None → exit_code (quantize_command args fs) = 0%Z →
     count is_write_config (calls (quantize_command args fs)) = 1) ∧
  (∀ supported params_ok supported' params_ok' fs0 fs1 path,
     write_inc_config_file_contract supported params_ok fs0 path false = Ok fs1 →
     write_inc_config_file_contract supported' params_ok' fs1 path false
     = Raise (Exn FileExistsError "A file already exists at the config file path")).
Proof.
  split; [|split; [|split]].
  - intros p Hp. destruct (no_generation_with_config args fs p Hp) as [H1 H2].
    split; [done|]. split; [done|]. by apply quantize_with_config.
  - apply one_generation_without_config.
  - intros Hp He. apply one_generation_without_config; [done|].
    by apply success_acquires.
  - intros. by eapply second_generation_fails.
Qed.

End QuantizeProperties.

Section QuantizeExamples.

Import Quantize.

(** The first scenario of [test_quantize]: no config file given. *)
Example quantize_without_config :
  exit_code (run_mock (args_for "efficientnet_b0" None)
                      (fs_model "efficientnet_b0" "saved_model.pb")) = 0%Z ∧
  calls (run_mock (args_for "efficientnet_b0" None)
                  (fs_model "efficientnet_b0" "saved_model.pb")) =
    [ GetModel "efficientnet_b0" TENSORFLOW;
      LoadDataset ["tmp"; "data"] IMAGE_CLASSIFICATION TENSORFLOW;
      WriteIncConfigFile
        ["tmp"; "output"; "quantized"; "efficientnet_b0"; "1"; "inc_config.yaml"] false;
      QuantizeModel ["tmp"; "efficientnet_b0"; "3"]
        ["tmp"; "output"; "quantized"; "efficientnet_b0"; "1"]
        ["tmp"; "output"; "quantized"; "efficientnet_b0"; "1"; "inc_config.yaml"] ].
Proof. vm_compute. split; reflexivity. Qed.

(** The values [test_quantize_invalid_*] pass: each one is rejected. *)
Example invalid_option_values :
  Forall (λ a, exit_code (run_mock a (fs_model "resnet_v1_50" "saved_model.pt")) = 2%Z)
    [ args_with_options "resnet_v1_50" (Some (FlagInt (-1))) None None;
      args_with_options "resnet_v1_50" (Some (FlagInt (-5))) None None;
      args_with_options "resnet_v1_50" (Some (FlagText "foo")) None None;
      args_with_options "resnet_v1_50" None (Some (FlagInt (-1))) None;
      args_with_options "resnet_v1_50" None (Some (FlagText "foo")) None;
      args_with_options "resnet_v1_50" None None (Some (FlagReal (13 # 10)));
      args_with_options "resnet_v1_50" None None (Some (FlagInt (-5)));
      args_with_options "resnet_v1_50" None None (Some (FlagText "foo")) ].
Proof. repeat constructor. Qed.

Lemma invalid_numeric_option_exit_2_witness :
  exit_code (run_mock (args_with_options "resnet_v1_50" (Some (FlagInt 0)) None None)
                      (fs_model "resnet_v1_50" "saved_model.pt")) = 2%Z ∧
  calls (run_mock (args_with_options "resnet_v1_50" (Some (FlagInt 0)) None None)
                  (fs_model "resnet_v1_50" "saved_model.pt")) = [] ∧
  fs_after (run_mock (args_with_options "resnet_v1_50" (Some (FlagInt 0)) None None)
                     (fs_model "resnet_v1_50" "saved_model.pt"))
  = fs_model "resnet_v1_50" "saved_model.pt".
Proof.
  apply invalid_numeric_option_exit_2.
  left. exists (FlagInt 0). split; [reflexivity|].
  intros z Hz. injection Hz as <-. lia.
Defined.

Lemma unsupported_model_file_exit_1_witness :
  exit_code (run_mock (args_for "bar" None)
                      (fs_model "bar" "unsupported_model_type.txt")) = 1%Z ∧
  In unsupported_model_file
     (output (run_mock (args_for "bar" None)
                       (fs_model "bar" "unsupported_model_type.txt"))) ∧
  calls (run_mock (args_for "bar" None)
                  (fs_model "bar" "unsupported_model_type.txt")) = [].
Proof.
  eapply unsupported_model_file_exit_1; vm_compute; reflexivity.
Defined.

Lemma model_identity_from_directory_witness :
  candidate_name (model_dir (args_for "resnet50" None)) = "resnet50" ∧
  detect_framework (fs_model "resnet50" "model.pt") (model_dir (args_for "resnet50" None))
  = Ok PYTORCH ∧
  head (calls (run_mock (args_for "resnet50" None) (fs_model "resnet50" "model.pt")))
  = Some (GetModel "resnet50" PYTORCH) ∧
  count is_get_model
    (calls (run_mock (args_for "resnet50" None) (fs_model "resnet50" "model.pt"))) = 1.
Proof.
  eapply (model_identity_from_directory mock_get_model mock_load_dataset
            (args_for "resnet50" None) (fs_model "resnet50" "model.pt") _
            ["tmp"] "resnet50" "3" PYTORCH).
  - vm_compute. reflexivity.
  - reflexivity.
  - reflexivity.
  - right. repeat split; vm_compute; reflexivity.
Defined.

Lemma config_generation_rule_witness :
  count is_write_config
    (calls (run_mock (args_for "inception_v3" None)
                     (fs_model "inception_v3" "saved_model.pb")))
  = 1 ∧
  count is_write_config
    (calls (run_mock (args_for "inception_v3" (Some ["tmp"; "inc_config.yaml"]))
                     (fs_model "inception_v3" "saved_model.pb")))
  = 0.
Proof.
  split.
  - apply (proj1 (proj2 (config_generation_rule mock_get_model mock_load_dataset
                           (args_for "inception_v3" None)
                           (fs_model "inception_v3" "saved_model.pb"))));
      [reflexivity|].
    do 4 eexists. repeat split; vm_compute; reflexivity.
  - apply (proj1 (config_generation_rule mock_get_model mock_load_dataset
                    (args_for "inception_v3" (Some ["tmp"; "inc_config.yaml"]))
                    (fs_model "inception_v3" "saved_model.pb"))
             ["tmp"; "inc_config.yaml"] eq_refl).
Defined.

End QuantizeExamples.

(** * Further properties of the code *)

(** ** File-system frame lemmas *)

Section FrameLemmas.

Import FS FSMore.

Lemma lookup_empty_dir_nonempty c p : lookup empty_dir (c :: p) = None.
Proof. reflexivity. Qed.

Lemma lookup_app p : ∀ fs q,
  lookup fs (p ++ q) = n ← lookup fs p; lookup n q.
Proof.
  induction p as [|a p IH]; intros fs q; simpl; [done|].
  destruct fs as [|es]; [done|].
  destruct (es !! a) as [m|]; simpl; [apply IH|done].
Qed.

Lemma lookup_child fs d c : lookup fs (d ++ [c]) = dir_entries fs d !! c.
Proof.
  rewrite lookup_app. unfold dir_entries.
  destruct (lookup fs d) as [[|es]|]; simpl; try done.
  by destruct (es !! c).
Qed.

(** [os.makedirs] changes nothing except on the way to the new directory. *)
Lemma makedirs_lookup_other p : ∀ fs fs' q,
  makedirs fs p = Some fs' → ¬ q `prefix_of` p → lookup fs' q = lookup fs q.
Proof.
  induction p as [|a p IH]; intros fs fs' q H Hq.
  - destruct fs; simpl in H; by simplify_eq.
  - destruct fs as [|es]; simpl in H; [discriminate|].
    destruct (makedirs (default empty_dir (es !! a)) p) as [m|] eqn:E;
      simpl in H; [|discriminate].
    injection H as <-.
    destruct q as [|b q]; [exfalso; apply Hq, prefix_nil|].
    simpl. destruct (decide (a = b)) as [<-|Hne].
    + rewrite lookup_insert_eq. simpl.
      assert (¬ q `prefix_of` p) as Hq'.
      { intros Hp. apply Hq. by apply prefix_cons. }
      rewrite (IH _ _ q E Hq').
      destruct (es !! a) as [x|]; simpl; [done|].
      destruct q as [|c q]; [exfalso; apply Hq', prefix_nil|done].
    + by rewrite lookup_insert_ne.
Qed.

(** Writing a tree changes nothing at the paths apart from it. *)
Lemma put_lookup_apart p : ∀ fs fs' new q,
  put fs p new = Some fs' → apart p q → lookup fs' q = lookup fs q.
Proof.
  induction p as [|a p IH]; intros fs fs' new q H [Hpq Hqp].
  - exfalso. apply Hpq, prefix_nil.
  - destruct fs as [|es]; simpl in H; [discriminate|].
    destruct (put (default empty_dir (es !! a)) p new) as [m|] eqn:E;
      simpl in H; [|discriminate].
    injection H as <-.
    destruct q as [|b q]; [exfalso; apply Hqp, prefix_nil|].
    simpl. destruct (decide (a = b)) as [<-|Hne].
    + rewrite lookup_insert_eq. simpl.
      assert (apart p q) as Hap.
      { split; intros Hp; [apply Hpq|apply Hqp]; by apply prefix_cons. }
      rewrite (IH _ _ _ q E Hap).
      destruct (es !! a) as [x|]; simpl; [done|].
      destruct q as [|c q]; [exfalso; apply (proj2 Hap), prefix_nil|done].
    + by rewrite lookup_insert_ne.
Qed.

Lemma unlink_lookup_apart p : ∀ fs fs' q,
  unlink fs p = Some fs' → apart p q → lookup fs' q = lookup fs q.
Proof.
  induction p as [|a p IH]; intros fs fs' q H [Hpq Hqp]; [discriminate|].
  destruct fs as [|es]; simpl in H; [discriminate|].
  destruct q as [|b q]; [exfalso; apply Hqp, prefix_nil|].
  destruct p as [|a' p].
  - destruct (es !! a) as [x|] eqn:Ea; [|discriminate]. injection H as <-.
    simpl. destruct (decide (a = b)) as [<-|Hne].
    + exfalso. apply Hpq. by apply prefix_cons, prefix_nil.
    + by rewrite lookup_delete_ne.
  - destruct (es !! a) as [x|] eqn:Ea; [|discriminate].
    cbn [mbind option_bind] in H.
    destruct (unlink x (a' :: p)) as [m|] eqn:E; [|discriminate].
    cbn [mbind option_bind] in H.
    injection H as <-.
    simpl. destruct (decide (a = b)) as [<-|Hne].
    + rewrite lookup_insert_eq, Ea. simpl.
      apply (IH _ _ q E). split; intros Hp; [apply Hpq|apply Hqp]; by apply prefix_cons.
    + by rewrite lookup_insert_ne.
Qed.

Lemma unlink_deeper es a b r :
  unlink (Dir es) (a :: b :: r)
  = m ← es !! a; m' ← unlink m (b :: r); Some (Dir (<[a := m']> es)).
Proof. reflexivity. Qed.

(** Removing the entry [c] of the directory [d] deletes it from the entries
    of [d], whatever it holds. *)
Lemma unlink_child d : ∀ fs es c x,
  lookup fs d = Some (Dir es) → es !! c = Some x →
  ∃ fs', unlink fs (d ++ [c]) = Some fs' ∧ lookup fs' d = Some (Dir (delete c es)).
Proof.
  induction d as [|a d IH]; intros fs es c x Hd Hc.
  - simpl in *. simplify_eq. rewrite Hc. eauto.
  - simpl in Hd. destruct fs as [|es']; [discriminate|].
    destruct (es' !! a) as [m|] eqn:Ea; simpl in Hd; [|discriminate].
    destruct (IH m es c x Hd Hc) as (m' & Hm' & Hl).
    assert (∃ b r, d ++ [c] = b :: r) as (b & r & Edc)
      by (destruct d; simpl; eauto).
    change ((a :: d) ++ [c]) with (a :: (d ++ [c])).
    rewrite Edc in *. rewrite unlink_deeper, Ea. cbn [mbind option_bind].
    rewrite Hm'. eexists. split; [done|].
    cbn [lookup]. rewrite lookup_insert_eq. exact Hl.
Qed.

End FrameLemmas.

(** ** More on [TFModel.export] *)

Section ExportMore.

Import FS FSMore TFExport.

Variable validate_model_name : string → string.

Local Abbreviation export := (TFExport.export validate_model_name).
Local Abbreviation export_n := (TFExport.export_n validate_model_name).
Local Abbreviation saved_root := (TFExport.saved_root validate_model_name).

Lemma verify_directory_lookup_other fs fs' p q :
  verify_directory fs p false = Ok fs' → ¬ q `prefix_of` p →
  lookup fs' q = lookup fs q.
Proof.
  unfold verify_directory. intros H Hq.
  destruct (lookup fs p) as [[|es]|] eqn:E; simplify_eq; [done|].
  destruct (makedirs fs p) as [m|] eqn:E'; simplify_eq.
  by eapply makedirs_lookup_other.
Qed.

(** X1 ([TFModel.export]): a successful [export] changes the file system only at the numbered
    directory it returns and on the way to it: every path that neither leads
    to that directory nor lies below it holds what it held before, so other
    versions of the model and other models are left alone. *)
Theorem export_leaves_the_rest self fs output_dir p fs' q :
  export self fs output_dir = Ok (p, fs') →
  apart p q →
  lookup fs' q = lookup fs q.
Proof.
  unfold TFExport.export. intros H Hap.
  destruct (_model self) as [k|]; [|discriminate].
  destruct (verify_directory fs output_dir false) as [fs1|] eqn:Ev; [|discriminate].
  cbn [mbind result_bind] in H.
  destruct (numbered_dir fs1 _) as [p0|] eqn:Hn; [|discriminate].
  cbn [mbind result_bind] in H.
  destruct (model_save fs1 p0) as [fs2|] eqn:Hs; [|discriminate].
  cbn [mbind result_bind mret result_ret] in H. injection H as -> ->.
  apply model_save_inv in Hs as (saved & _ & Ep).
  rewrite (put_lookup_apart _ _ _ _ _ Ep Hap).
  apply (verify_directory_lookup_other _ _ _ _ Ev).
  intros Hq. apply (proj2 Hap).
  apply numbered_dir_ok in Hn. subst p.
  destruct Hq as [k1 ->]. exists (k1 ++ [validate_model_name (model_name self)]
                                     ++ [str_of_nat (S (size (dir_entries fs1
                                          ((q ++ k1) ++ [validate_model_name (model_name self)]))))]).
  by rewrite <- !app_assoc.
Qed.

Lemma lookup_dir_parent fs d c es :
  lookup fs (d ++ [c]) = Some (Dir es) →
  ∃ es', lookup fs d = Some (Dir es') ∧ es' !! c = Some (Dir es).
Proof.
  rewrite lookup_app. destruct (lookup fs d) as [[|es']|]; simpl; try discriminate.
  destruct (es' !! c) as [x|] eqn:E; simpl; [|discriminate].
  intros [= ->]. eauto.
Qed.

(** One export into a directory whose next number is taken by a directory
    that can take the SavedModel: the same entries, that one written into. *)
Lemma export_taken_step self fs output_dir ents old :
  is_Some (_model self) →
  lookup fs (saved_root self output_dir) = Some (Dir ents) →
  ents !! str_of_nat (S (size ents)) = Some (Dir old) →
  is_Some (save_into old) →
  ∃ fs' ents' old',
    export self fs output_dir
    = Ok (saved_root self output_dir ++ [str_of_nat (S (size ents))], fs') ∧
    lookup fs' (saved_root self output_dir) = Some (Dir ents') ∧
    size ents' = size ents ∧
    ents' !! str_of_nat (S (size ents)) = Some (Dir old') ∧
    is_Some (save_into old').
Proof.
  intros Hm Hd Hold [old' Hsave].
  pose proof Hd as (es & Hout & Hv)%lookup_dir_parent.
  assert (dir_entries fs (saved_root self output_dir) = ents) as He
    by (unfold dir_entries; by rewrite Hd).
  pose proof (lookup_snoc _ _ _ (str_of_nat (S (size ents))) Hd) as Hl.
  rewrite Hold in Hl.
  destruct (export_succeeds validate_model_name self fs output_dir es old' Hm Hout)
    as (fs' & E & Hd' & _).
  - by rewrite Hv.
  - rewrite He. by rewrite Hl.
  - rewrite He. unfold dir_entries at 1. by rewrite Hl.
  - rewrite He in E, Hd'.
    exists fs', (<[str_of_nat (S (size ents)) := Dir old']> ents), old'.
    split; [done|]. split; [done|]. split; [by erewrite map_size_insert_Some|].
    split; [apply lookup_insert_eq|by eapply save_into_again].
Qed.

(** Successive exports into a directory whose next number is taken all go
    to that number. *)
Lemma export_n_taken n : ∀ self fs output_dir ents old,
  is_Some (_model self) →
  lookup fs (saved_root self output_dir) = Some (Dir ents) →
  ents !! str_of_nat (S (size ents)) = Some (Dir old) →
  is_Some (save_into old) →
  ∃ fs',
    export_n self fs output_dir n
    = Ok (replicate n (saved_root self output_dir ++ [str_of_nat (S (size ents))]), fs').
Proof.
  induction n as [|n IH]; intros self fs output_dir ents old Hm Hd Hold Hsave.
  - by exists fs.
  - destruct (export_taken_step self fs output_dir ents old Hm Hd Hold Hsave)
      as (fs1 & ents1 & old1 & E1 & Hd1 & Hsz & Hnew & Hsave1).
    rewrite <- Hsz in Hnew.
    destruct (IH self fs1 output_dir ents1 old1 Hm Hd1 Hnew Hsave1) as (fs2 & E2).
    rewrite Hsz in E2.
    exists fs2. cbn [TFExport.export_n]. rewrite E1. cbn [mbind result_bind].
    by rewrite E2.
Qed.

(** X2 ([TFModel.export]): [export] does not check that the numbered
    directory is new.  When the model's directory has k entries and one of
    them is a directory already named k+1 that a SavedModel can be written
    into (nothing of the wrong kind in the way of [saved_model.pb],
    [variables] and [assets]), every one of [n] successive exports succeeds
    and returns that same directory [k+1]: the number does not advance. *)
Theorem export_reuses_taken_number n self fs output_dir ents old :
  is_Some (_model self) →
  lookup fs (saved_root self output_dir) = Some (Dir ents) →
  ents !! str_of_nat (S (size ents)) = Some (Dir old) →
  is_Some (save_into old) →
  ∃ fs',
    export_n self fs output_dir n
    = Ok (replicate n (saved_root self output_dir ++ [str_of_nat (S (size ents))]), fs').
Proof. apply export_n_taken. Qed.

(** X3 ([TFModel.export]): when [<output_dir>/<validated model name>] exists as a regular file,
    [export] of a loaded model raises [NotADirectoryError], which comes from
    [os.listdir] and is not among the errors its docstring lists. *)
Theorem export_model_path_is_file self fs output_dir :
  is_Some (_model self) →
  lookup fs (saved_root self output_dir) = Some File →
  export self fs output_dir = Raise (Exn NotADirectoryError "Not a directory").
Proof.
  intros [k Hk] Hd. unfold TFExport.export. rewrite Hk.
  assert (∃ es, lookup fs output_dir = Some (Dir es)) as [es Hout].
  { unfold TFExport.saved_root in Hd. rewrite lookup_app in Hd.
    destruct (lookup fs output_dir) as [[|es]|]; simpl in Hd; try discriminate.
    eauto. }
  unfold verify_directory. rewrite Hout. cbn [mbind result_bind].
  unfold numbered_dir, exists_, listdir.
  unfold TFExport.saved_root in Hd. by rewrite Hd.
Qed.

End ExportMore.

Section ExportMoreExamples.

Import FS FSMore TFExport.

Lemma export_leaves_the_rest_witness :
  ∃ fs',
    export id resnet fs_with_other_model ["out"]
    = Ok (["out"; "resnet_v1_50"; "1"], fs') ∧
    lookup fs' ["out"; "bert"; "1"] = Some saved_model_tree.
Proof.
  assert (∃ fs', export id resnet fs_with_other_model ["out"]
                 = Ok (["out"; "resnet_v1_50"; "1"], fs')) as [fs' E].
  { eexists. vm_compute. reflexivity. }
  exists fs'. split; [exact E|].
  rewrite (export_leaves_the_rest id resnet fs_with_other_model ["out"]
             ["out"; "resnet_v1_50"; "1"] fs' ["out"; "bert"; "1"] E).
  - vm_compute. reflexivity.
  - split; intros [k Hk]; discriminate Hk.
Defined.

Lemma export_reuses_taken_number_witness :
  ∃ fs',
    export_n id resnet fs_with_version_2 ["out"] 3
    = Ok (replicate 3 ["out"; "resnet_v1_50"; "2"], fs').
Proof.
  exact (export_reuses_taken_number id 3 resnet fs_with_version_2 ["out"]
           {["2" := empty_dir]} ∅ (ex_intro _ (KerasModel 0) eq_refl)
           eq_refl eq_refl (ex_intro _ _ eq_refl)).
Defined.

Lemma export_model_path_is_file_witness :
  export id resnet fs_with_model_file ["out"]
  = Raise (Exn NotADirectoryError "Not a directory").
Proof.
  exact (export_model_path_is_file id resnet fs_with_model_file ["out"]
           (ex_intro _ (KerasModel 0) eq_refl) eq_refl).
Defined.

End ExportMoreExamples.

(** ** [TFModel.cleanup_saved_objects_for_distributed] *)

Section CleanupLemmas.

Import FS FSMore Distributed.

Variable TLT_DISTRIBUTED_DIR : path.

Local Abbreviation cleanup_entry := (Distributed.cleanup_entry TLT_DISTRIBUTED_DIR).
Local Abbreviation cleanup_entries := (Distributed.cleanup_entries TLT_DISTRIBUTED_DIR).
Local Abbreviation cleanup :=
  (Distributed.cleanup_saved_objects_for_distributed TLT_DISTRIBUTED_DIR).

Lemma apart_child d f q : apart d q → apart (d ++ [f]) q.
Proof.
  intros [H1 H2]. split.
  - intros [k ->]. apply H1. exists ([f] ++ k). by rewrite <- app_assoc.
  - intros [k Hk]. destruct (decide (k = [])) as [->|Hne].
    + rewrite app_nil_r in Hk. subst q. apply H1. by exists [f].
    + apply H2. destruct (exists_last Hne) as (k' & c & ->).
      rewrite app_assoc in Hk. apply app_inj_tail in Hk as [-> _]. by exists k'.
Qed.

(** One turn of the loop, on a state where the directory is there. *)
Lemma cleanup_entry_spec f fs out es :
  lookup fs TLT_DISTRIBUTED_DIR = Some (Dir es) →
  ∃ fs',
    cleanup_entry f (fs, out) = Ok (fs', out) ∧
    lookup fs' TLT_DISTRIBUTED_DIR = Some (Dir (without es f)) ∧
    (∀ q, apart TLT_DISTRIBUTED_DIR q → lookup fs' q = lookup fs q) ∧
    (without es f = es → fs' = fs).
Proof.
  intros Hd. unfold Distributed.cleanup_entry, without, isdir, isfile, rmtree, remove.
  cbn [fst snd]. rewrite !(lookup_snoc _ _ _ f Hd).
  destruct (es !! f) as [[|sub]|] eqn:Ef; cbn [cleaned andb].
  - destruct (bool_decide (f ∈ files) || startswith_saved f) eqn:Ec.
    + destruct (unlink_child _ _ _ f File Hd Ef) as (fs' & Hu & Hl).
      rewrite Hu. cbn [guarded fst snd]. exists fs'. split; [done|]. split; [done|].
      split.
      * intros q Hq. eapply unlink_lookup_apart; [exact Hu|]. by apply apart_child.
      * intros He. exfalso. apply (f_equal (λ m, m !! f)) in He.
        rewrite lookup_delete_eq, Ef in He. discriminate.
    + exists fs. done.
  - destruct (bool_decide (f ∈ dirs)) eqn:Ec.
    + destruct (unlink_child _ _ _ f (Dir sub) Hd Ef) as (fs' & Hu & Hl).
      rewrite Hu. cbn [guarded fst snd]. exists fs'. split; [done|]. split; [done|].
      split.
      * intros q Hq. eapply unlink_lookup_apart; [exact Hu|]. by apply apart_child.
      * intros He. exfalso. apply (f_equal (λ m, m !! f)) in He.
        rewrite lookup_delete_eq, Ef in He. discriminate.
    + exists fs. done.
  - exists fs. done.
Qed.

(** What the turns leave of each entry *)
Lemma foldl_without_lookup names : ∀ es k,
  foldl without es names !! k =
  match es !! k with
  | Some n => if bool_decide (k ∈ names) && cleaned k n then None else Some n
  | None => None
  end.
Proof.
  induction names as [|f names IH]; intros es k; cbn [foldl].
  - destruct (es !! k); [|done]. by rewrite bool_decide_eq_false_2 by apply not_elem_of_nil.
  - rewrite IH. unfold without.
    destruct (decide (k = f)) as [->|Hne].
    + destruct (es !! f) as [n|] eqn:Ef.
      * destruct (cleaned f n) eqn:Ec.
        -- rewrite lookup_delete_eq.
           rewrite (bool_decide_eq_true_2 (f ∈ f :: names)) by apply list_elem_of_here.
           done.
        -- rewrite Ef, Ec. by rewrite !andb_false_r.
      * by rewrite Ef.
    + assert (bool_decide (k ∈ f :: names) = bool_decide (k ∈ names)) as ->.
      { apply bool_decide_ext. rewrite elem_of_cons. split; [by intros [?|?]|by right]. }
      destruct (es !! f) as [n|] eqn:Ef; [|done].
      destruct (cleaned f n); [|done]. by rewrite lookup_delete_ne.
Qed.

Lemma cleanup_entries_spec names : ∀ fs out es,
  lookup fs TLT_DISTRIBUTED_DIR = Some (Dir es) →
  ∃ fs',
    cleanup_entries names (fs, out) = Ok (fs', out) ∧
    lookup fs' TLT_DISTRIBUTED_DIR = Some (Dir (foldl without es names)) ∧
    (∀ q, apart TLT_DISTRIBUTED_DIR q → lookup fs' q = lookup fs q) ∧
    (foldl without es names = es → fs' = fs).
Proof.
  induction names as [|f names IH]; intros fs out es Hd.
  - exists fs. done.
  - destruct (cleanup_entry_spec f fs out es Hd) as (fs1 & E1 & Hd1 & Hf1 & Hsame1).
    destruct (IH fs1 out _ Hd1) as (fs2 & E2 & Hd2 & Hf2 & Hsame2).
    exists fs2. cbn [Distributed.cleanup_entries]. rewrite E1. cbn [mbind result_bind].
    split; [done|]. split; [done|]. split.
    + intros q Hq. by rewrite Hf2, Hf1.
    + cbn [foldl]. intros He.
      assert (without es f = es) as Hw.
      { apply (f_equal (λ m, m !! f)) in He. rewrite foldl_without_lookup in He.
        unfold without in *. destruct (es !! f) as [n|] eqn:Ef; [|done].
        destruct (cleaned f n); [|done]. exfalso.
        by rewrite lookup_delete_eq in He. }
      rewrite Hw in He. rewrite Hsame2 by (by rewrite Hw). by apply Hsame1.
Qed.

Lemma foldl_without_all es :
  foldl without es (map fst (map_to_list es)) = filter kept es.
Proof.
  apply map_eq. intros k. rewrite foldl_without_lookup.
  destruct (es !! k) as [n|] eqn:Ek.
  - assert (k ∈ map fst (map_to_list es)) as Hin.
    { apply list_elem_of_fmap. exists (k, n). split; [done|].
      by apply elem_of_map_to_list. }
    rewrite (bool_decide_eq_true_2 _ Hin). cbn [andb].
    destruct (cleaned k n) eqn:Ec; symmetry.
    + apply map_lookup_filter_None. right. intros x Hx. simplify_eq.
      unfold kept. simpl. congruence.
    + apply map_lookup_filter_Some. done.
  - symmetry. apply map_lookup_filter_None. by left.
Qed.

(** The whole clean-up, when the working directory is there. *)
Lemma cleanup_spec fs es :
  lookup fs TLT_DISTRIBUTED_DIR = Some (Dir es) →
  ∃ fs',
    cleanup fs = Ok (fs', []) ∧
    lookup fs' TLT_DISTRIBUTED_DIR = Some (Dir (filter kept es)) ∧
    (∀ q, apart TLT_DISTRIBUTED_DIR q → lookup fs' q = lookup fs q) ∧
    (filter kept es = es → fs' = fs).
Proof.
  intros Hd. unfold Distributed.cleanup_saved_objects_for_distributed, listdir.
  rewrite Hd. cbn [mbind result_bind].
  destruct (cleanup_entries_spec (map fst (map_to_list es)) fs [] es Hd)
    as (fs' & E & Hl & Hf & Hsame).
  rewrite foldl_without_all in Hl, Hsame. eauto.
Qed.

Lemma filter_kept_twice (es : gmap string node) :
  filter kept (filter kept es) = filter kept es.
Proof.
  apply map_eq. intros k. apply option_eq. intros n.
  rewrite !map_lookup_filter_Some. tauto.
Qed.

(** X4 ([TFModel.cleanup_saved_objects_for_distributed]): when the working
    directory is there, the clean-up succeeds and prints nothing, and below
    the working directory it removes exactly the entries that are directories
    named in [dirs] or files that are named in [files] or whose name starts
    with [saved]; every other entry is left as it was, to any depth. *)
Theorem cleanup_removes_exactly fs es :
  lookup fs TLT_DISTRIBUTED_DIR = Some (Dir es) →
  ∃ fs',
    cleanup_saved_objects_for_distributed TLT_DISTRIBUTED_DIR fs = Ok (fs', []) ∧
    ∀ f q,
      lookup fs' (TLT_DISTRIBUTED_DIR ++ f :: q) =
      match lookup fs (TLT_DISTRIBUTED_DIR ++ [f]) with
      | Some n => if cleaned f n then None else lookup fs (TLT_DISTRIBUTED_DIR ++ f :: q)
      | None => None
      end.
Proof.
  intros Hd. destruct (cleanup_spec fs es Hd) as (fs' & E & Hl & _).
  exists fs'. split; [done|]. intros f q.
  rewrite !lookup_app, Hd, Hl. cbn [mbind option_bind lookup].
  destruct (es !! f) as [n|] eqn:Ef.
  - destruct (cleaned f n) eqn:Ec.
    + assert (filter kept es !! f = None) as ->; [|simpl; by rewrite ?Ec].
      apply map_lookup_filter_None. right. intros x Hx. simplify_eq.
      unfold kept. simpl. congruence.
    + assert (filter kept es !! f = Some n) as ->; [|simpl; by rewrite ?Ec].
      by apply map_lookup_filter_Some.
  - assert (filter kept es !! f = None) as ->; [|simpl; by rewrite ?Ec].
    apply map_lookup_filter_None. by left.
Qed.

(** X5 ([TFModel.cleanup_saved_objects_for_distributed]): the clean-up
    changes nothing outside the working directory: every path that is
    neither inside it nor an ancestor of it holds afterwards what it held
    before. *)
Theorem cleanup_leaves_the_rest fs fs' out q :
  cleanup_saved_objects_for_distributed TLT_DISTRIBUTED_DIR fs = Ok (fs', out) →
  apart TLT_DISTRIBUTED_DIR q →
  lookup fs' q = lookup fs q.
Proof.
  intros E Hq.
  destruct (lookup fs TLT_DISTRIBUTED_DIR) as [[|es]|] eqn:Hd.
  - unfold Distributed.cleanup_saved_objects_for_distributed, listdir in E.
    rewrite Hd in E. discriminate E.
  - destruct (cleanup_spec fs es Hd) as (fs1 & E1 & _ & Hf & _).
    rewrite E1 in E. injection E as <- _. by apply Hf.
  - unfold Distributed.cleanup_saved_objects_for_distributed, listdir in E.
    rewrite Hd in E. discriminate E.
Qed.

(** X6 ([TFModel.cleanup_saved_objects_for_distributed]): cleaning up is
    idempotent: a second clean-up right after a successful one succeeds,
    prints nothing and returns the file system it was given. *)
Theorem cleanup_twice fs fs' out :
  cleanup_saved_objects_for_distributed TLT_DISTRIBUTED_DIR fs = Ok (fs', out) →
  cleanup_saved_objects_for_distributed TLT_DISTRIBUTED_DIR fs' = Ok (fs', []).
Proof.
  intros E.
  destruct (lookup fs TLT_DISTRIBUTED_DIR) as [[|es]|] eqn:Hd.
  - unfold Distributed.cleanup_saved_objects_for_distributed, listdir in E.
    rewrite Hd in E. discriminate E.
  - destruct (cleanup_spec fs es Hd) as (fs1 & E1 & Hl & _).
    rewrite E1 in E. injection E as <- _.
    destruct (cleanup_spec fs1 _ Hl) as (fs2 & E2 & _ & _ & Hsame).
    rewrite E2. by rewrite (Hsame (filter_kept_twice es)).
  - unfold Distributed.cleanup_saved_objects_for_distributed, listdir in E.
    rewrite Hd in E. discriminate E.
Qed.

End CleanupLemmas.

Section CleanupExamples.

Import FS FSMore Distributed.

Lemma cleanup_removes_exactly_witness :
  ∃ fs',
    cleanup_saved_objects_for_distributed ["dist"] fs_after_training = Ok (fs', []) ∧
    ∀ f q,
      lookup fs' (["dist"] ++ f :: q) =
      match lookup fs_after_training (["dist"] ++ [f]) with
      | Some n => if cleaned f n then None
                  else lookup fs_after_training (["dist"] ++ f :: q)
      | None => None
      end.
Proof.
  eapply (cleanup_removes_exactly ["dist"] fs_after_training).
  vm_compute. reflexivity.
Defined.

Lemma cleanup_leaves_the_rest_witness :
  cleanup_saved_objects_for_distributed ["dist"] fs_after_training = Ok (fs_cleaned, []) ∧
  apart ["dist"] ["home"; "notes.txt"] ∧
  lookup fs_cleaned ["home"; "notes.txt"] = lookup fs_after_training ["home"; "notes.txt"].
Proof.
  assert (cleanup_saved_objects_for_distributed ["dist"] fs_after_training
          = Ok (fs_cleaned, [])) as E by (vm_compute; reflexivity).
  assert (apart ["dist"] ["home"; "notes.txt"]) as Ha.
  { split; intros [k Hk]; vm_compute in Hk; discriminate Hk. }
  split; [exact E|]. split; [exact Ha|].
  exact (cleanup_leaves_the_rest ["dist"] fs_after_training fs_cleaned []
           ["home"; "notes.txt"] E Ha).
Defined.

Lemma cleanup_twice_witness :
  cleanup_saved_objects_for_distributed ["dist"] fs_after_training = Ok (fs_cleaned, []) ∧
  cleanup_saved_objects_for_distributed ["dist"] fs_cleaned = Ok (fs_cleaned, []).
Proof.
  assert (cleanup_saved_objects_for_distributed ["dist"] fs_after_training
          = Ok (fs_cleaned, [])) as E by (vm_compute; reflexivity).
  split; [exact E|].
  exact (cleanup_twice ["dist"] fs_after_training fs_cleaned [] E).
Defined.

End CleanupExamples.

(** ** [TFModel._parse_hostfile]: which lines take which form *)

Section LanguageLemmas.

Import Regex Hostfile HostfileMore.

Lemma elem_of_all_ascii c : c ∈ all_ascii.
Proof.
  unfold all_ascii. apply list_elem_of_fmap. exists (nat_of_ascii c).
  split; [by rewrite ascii_nat_embedding|].
  apply elem_of_seq. pose proof (nat_ascii_bounded c). lia.
Qed.

Lemma language_complete r s : star_free r = true → Matches r s → s ∈ language r.
Proof.
  intros Hr H. induction H as [| | ranges c Hc|r1 r2 s1 s2 _ IH1 _ IH2|r1 r2 s _ IH
                               |r1 r2 s _ IH| |];
    cbn [star_free language] in Hr |- *; try discriminate.
  - apply list_elem_of_here.
  - apply list_elem_of_here.
  - apply list_elem_of_In, (in_map (λ c, [c])), filter_In. split; [|done].
    apply list_elem_of_In, elem_of_all_ascii.
  - apply andb_true_iff in Hr as [H1 H2].
    apply list_elem_of_bind. exists s1. split; [|by apply IH1].
    apply list_elem_of_bind. exists s2. split; [apply list_elem_of_here|by apply IH2].
  - apply andb_true_iff in Hr as [H1 _]. apply elem_of_app. left. by apply IH.
  - apply andb_true_iff in Hr as [_ H2]. apply elem_of_app. right. by apply IH.
Qed.

Lemma octet_language :
  forallb (λ s, bool_decide (s ∈ octets)) (language octet) = true.
Proof. vm_compute. reflexivity. Qed.

Lemma octets_match : forallb (matches octet) octets = true.
Proof. vm_compute. reflexivity. Qed.

(** [octet] matches the numerals of 0 to 255, and nothing else. *)
Lemma Matches_octet s : Matches octet s ↔ ∃ n : nat, (n ≤ 255)%nat ∧ s = numeral n.
Proof.
  split.
  - intros H. apply language_complete in H; [|reflexivity].
    pose proof octet_language as Hall. rewrite forallb_forall in Hall.
    apply list_elem_of_In, Hall, bool_decide_eq_true in H.
    apply list_elem_of_fmap in H as (n & -> & Hn). apply elem_of_seq in Hn.
    exists n. split; [lia|done].
  - intros (n & Hn & ->). apply matches_spec.
    pose proof octets_match as Hall. rewrite forallb_forall in Hall.
    apply Hall, list_elem_of_In, list_elem_of_fmap. exists n. split; [done|].
    apply elem_of_seq. lia.
Qed.

Lemma Matches_Cat r1 r2 s :
  Matches (Cat r1 r2) s ↔ ∃ s1 s2, s = s1 ++ s2 ∧ Matches r1 s1 ∧ Matches r2 s2.
Proof.
  split.
  - inversion 1; subst. eauto.
  - intros (s1 & s2 & -> & H1 & H2). by constructor.
Qed.

Lemma Matches_octet_dot s :
  Matches (Cat octet (lit ".")) s ↔ ∃ n : nat, (n ≤ 255)%nat ∧ s = numeral n ++ dot.
Proof.
  rewrite Matches_Cat. split.
  - intros (s1 & s2 & -> & (n & Hn & ->)%Matches_octet & ->%Matches_Str). eauto.
  - intros (n & Hn & ->). exists (numeral n), dot. split; [done|].
    split; [apply Matches_octet; eauto|by apply Matches_Str].
Qed.

(** [ip] matches the dotted quads, and nothing else. *)
Lemma Matches_ip s : Matches ip s ↔ is_dotted_quad s.
Proof.
  unfold ip, is_dotted_quad, dotted_quad. cbn [Rep]. split.
  - intros (s1 & s4 & -> & H1 & (d & Hd & ->)%Matches_octet)%Matches_Cat.
    apply Matches_Cat in H1 as (x1 & s2 & -> & (a & Ha & ->)%Matches_octet_dot & H2).
    apply Matches_Cat in H2 as (x2 & s3 & -> & (b & Hb & ->)%Matches_octet_dot & H3).
    apply Matches_Cat in H3 as (x3 & s5 & -> & (c & Hc & ->)%Matches_octet_dot & H4).
    inversion H4; subst. exists a, b, c, d. split; [done|].
    rewrite app_nil_r. by rewrite <- !app_assoc.
  - intros (a & b & c & d & (Ha & Hb & Hc & Hd) & ->).
    replace (numeral a ++ dot ++ numeral b ++ dot ++ numeral c ++ dot ++ numeral d)
      with (((numeral a ++ dot) ++ (numeral b ++ dot) ++ (numeral c ++ dot) ++ [])
            ++ numeral d)
      by (rewrite app_nil_r; by rewrite <- !app_assoc).
    constructor; [|apply Matches_octet; eauto].
    repeat (constructor; [apply Matches_octet_dot; eauto|]). constructor.
Qed.

Lemma alnum_is_alnum_dash c : is_alnum c = true → is_alnum_dash c = true.
Proof.
  unfold is_alnum, is_alnum_dash, in_class. cbn [existsb fst snd].
  repeat match goal with
         | |- context [Py.in_range ?a ?b c] => destruct (Py.in_range a b c)
         end; done.
Qed.

Lemma Matches_alnum s : Matches alnum s ↔ ∃ c, s = [c] ∧ is_alnum c = true.
Proof.
  split.
  - inversion 1; subst. eauto.
  - intros (c & -> & Hc). by constructor.
Qed.

Lemma Matches_Star_pieces r s :
  Matches (Star r) s ↔ ∃ ps, Forall (Matches r) ps ∧ s = concat ps.
Proof.
  split.
  - remember (Star r) as r' eqn:E. intros H.
    induction H as [| | | | | | |r0 s1 s2 H1 _ H2 IH2]; try discriminate.
    + by exists [].
    + injection E as ->. destruct (IH2 eq_refl) as (ps & Hps & ->).
      exists (s1 :: ps). split; [by constructor|done].
  - intros (ps & Hps & ->). induction Hps as [|p ps Hp _ IH]; simpl; by constructor.
Qed.

Lemma Matches_Star_class ranges s :
  Matches (Star (Class ranges)) s ↔ forallb (in_class ranges) s = true.
Proof.
  split.
  - intros H%Matches_may_contain. apply forallb_forall. intros c Hc.
    rewrite Forall_forall in H. by apply H, list_elem_of_In.
  - induction s as [|c s IH]; simpl; [constructor|].
    intros [Hc Hs]%andb_true_iff. change (c :: s) with ([c] ++ s).
    constructor; [by constructor|by apply IH].
Qed.

(** [label] matches the labels, and nothing else. *)
Lemma Matches_label l : Matches label l ↔ good_label l = true.
Proof.
  unfold label. split.
  - inversion 1 as [| | | |? ? ? Ha|? ? ? Hb| |]; subst.
    + apply Matches_alnum in Ha as (c & -> & Hc). simpl.
      by rewrite Hc, (alnum_is_alnum_dash _ Hc).
    + apply Matches_Cat in Hb as (s1 & s2 & -> & (c1 & -> & Hc1)%Matches_alnum & Hb).
      apply Matches_Cat in Hb as (mid & s3 & -> & Hmid & (c2 & -> & Hc2)%Matches_alnum).
      apply Matches_Star_class in Hmid.
      change (good_label (c1 :: mid ++ [c2]) = true). unfold good_label.
      rewrite Hc1. change (c1 :: mid ++ [c2]) with ((c1 :: mid) ++ [c2]).
      rewrite last_last, Hc2, forallb_app. simpl.
      change (in_class _ c1) with (is_alnum_dash c1).
      change (in_class _ c2) with (is_alnum_dash c2).
      rewrite (alnum_is_alnum_dash _ Hc1), (alnum_is_alnum_dash _ Hc2).
      simpl. rewrite !andb_true_r. exact Hmid.
  - destruct l as [|c rest]; [discriminate|]. unfold good_label.
    intros [[Hc Hall]%andb_true_iff Hlast]%andb_true_iff.
    destruct (decide (rest = [])) as [->|Hne].
    + apply M_Alt_l. apply Matches_alnum. eauto.
    + destruct (exists_last Hne) as (mid & c2 & ->).
      change (c :: mid ++ [c2]) with ((c :: mid) ++ [c2]) in Hlast, Hall.
      rewrite last_last in Hlast. rewrite forallb_app in Hall.
      apply andb_true_iff in Hall as [Hall _]. simpl in Hall.
      apply andb_true_iff in Hall as [_ Hmid].
      apply M_Alt_r. change (c :: mid ++ [c2]) with ([c] ++ mid ++ [c2]).
      constructor; [apply Matches_alnum; eauto|].
      constructor; [by apply Matches_Star_class|apply Matches_alnum; eauto].
Qed.

Lemma join_snoc ls : ∀ l,
  concat (map (λ x, x ++ dot) ls) ++ l = join dot (ls ++ [l]).
Proof.
  induction ls as [|x ls IH]; intros l; [done|].
  simpl. rewrite <- IH, <- !app_assoc.
  destruct (ls ++ [l]) eqn:E; [by destruct ls|done].
Qed.

(** [hostname] matches the dot-separated sequences of labels, and nothing
    else. *)
Lemma Matches_hostname h : Matches hostname h ↔ dotted_name h.
Proof.
  unfold hostname, dotted_name. rewrite Matches_Cat. split.
  - intros (s1 & l & -> & (ps & Hps & ->)%Matches_Star_pieces & Hl%Matches_label).
    assert (∃ ls, Forall (λ l, good_label l = true) ls ∧ ps = map (λ x, x ++ dot) ls)
      as (ls & Hls & ->).
    { induction Hps as [|p ps Hp _ (ls & Hls & ->)]; [by exists []|].
      apply Matches_Cat in Hp as (x & y & -> & Hx%Matches_label & ->%Matches_Str).
      exists (x :: ls). split; [by constructor|done]. }
    exists (ls ++ [l]). split; [by destruct ls|].
    split; [apply Forall_app; split; [done|by constructor]|apply join_snoc].
  - intros (labels & Hne & Hall & ->).
    destruct (exists_last Hne) as (ls & l & ->).
    apply Forall_app in Hall as [Hls Hl]. apply Forall_inv in Hl.
    exists (concat (map (λ x, x ++ dot) ls)), l. split; [by rewrite join_snoc|].
    split; [|by apply Matches_label].
    apply Matches_Star_pieces. eexists. split; [|reflexivity].
    apply Forall_fmap. eapply Forall_impl; [exact Hls|]. intros x Hx. simpl.
    constructor; [by apply Matches_label|by apply Matches_Str].
Qed.

End LanguageLemmas.

Section HostfileForms.

Import Regex Hostfile HostfileMore.

(** X7 ([TFModel._parse_hostfile]): a line is taken as a plain IP address
    (pattern ['valid_ip'], the first one tried) exactly when it is four
    decimal numbers between 0 and 255, written without leading zeros and
    separated by dots. *)
Theorem plain_address_is_dotted_quad raw :
  first_match valid_regexes (Py.rstrip raw) = Some valid_ip ↔
  is_dotted_quad (Py.rstrip raw).
Proof.
  rewrite <- Matches_ip, <- matches_spec. unfold valid_regexes. cbn [first_match].
  destruct (matches ip (Py.rstrip raw)); [done|]. split; [|done].
  repeat match goal with
         | |- context [if ?b then _ else _] => destruct b
         end; discriminate.
Qed.

(** X8 ([TFModel._parse_hostfile]): a line is taken as a bare host name
    (pattern ['valid_hostname'], and so handed to the resolver as it is)
    exactly when it is a dot-separated sequence of one or more labels, each
    made of letters, digits and hyphens with no hyphen at either end, and it
    is not a dotted quad of numbers up to 255. *)
Theorem bare_hostname_is_dotted_name raw :
  first_match valid_regexes (Py.rstrip raw) = Some valid_hostname ↔
  dotted_name (Py.rstrip raw) ∧ ¬ is_dotted_quad (Py.rstrip raw).
Proof.
  rewrite <- Matches_ip, <- Matches_hostname. generalize (Py.rstrip raw) as line.
  intros line. split.
  - intros H%first_match_inv. tauto.
  - intros [Hh Hip]. unfold valid_regexes. cbn [first_match].
    apply matches_false in Hip. rewrite Hip.
    assert (matches (Cat ip slots_suffix) line = false) as ->.
    { apply matches_false. intros (a & d & -> & _)%Matches_with_suffix.
      apply (Matches_avoids _ " "%char) in Hh; [|reflexivity].
      apply Forall_app in Hh as [_ Hh]. by apply Forall_inv in Hh. }
    assert (matches (Cat ip colon_suffix) line = false) as ->.
    { apply matches_false. intros (a & d & -> & _)%Matches_with_suffix.
      apply (Matches_avoids _ ":"%char) in Hh; [|reflexivity].
      apply Forall_app in Hh as [_ Hh]. by apply Forall_inv in Hh. }
    apply matches_spec in Hh. by rewrite Hh.
Qed.

Lemma append_line_resolver g1 g2 line k info :
  first_match valid_regexes line = Some k →
  (∀ h, names_host line h → g1 h = g2 h) →
  append_line g1 line k info = append_line g2 line k info.
Proof.
  intros Hk Hg. apply first_match_inv in Hk.
  destruct k; unfold append_line; try done.
  - destruct Hk as [Hn Hh]. rewrite (Hg line); [done|].
    split; [done|]. split; [done|]. by left.
  - destruct Hk as [Hn Hh].
    apply Matches_with_suffix in Hh as (h & d & -> & Hh & Hd & Hs).
    fold slots_sep. rewrite (split_slots hostname h d) by done. simpl.
    rewrite (Hg h); [done|].
    split; [intros Hip; apply Hn; by constructor|].
    split; [done|]. right. exists d. split; [done|]. by left.
  - destruct Hk as [Hn Hh].
    apply Matches_with_suffix in Hh as (h & d & -> & Hh & Hd & Hs).
    fold colon_sep. rewrite (split_colon hostname h d) by done. simpl.
    rewrite (Hg h); [done|].
    split; [intros Hip; apply Hn; by constructor|].
    split; [done|]. right. exists d. split; [done|]. by right.
Qed.

Lemma match_lines_kinds lines : ∀ ks,
  match_lines lines = Ok ks →
  Forall2 (λ l k, first_match valid_regexes l = Some k) lines ks.
Proof.
  induction lines as [|line lines IH]; intros ks; cbn [match_lines].
  - intros [= <-]. constructor.
  - destruct (first_match valid_regexes line) as [k|] eqn:Hk; [|discriminate].
    destruct (match_lines lines) as [ks'|e]; [|discriminate].
    intros [= <-]. constructor; [done|by apply IH].
Qed.

Lemma fill_resolver g1 g2 lines : ∀ ks info,
  Forall2 (λ l k, first_match valid_regexes l = Some k) lines ks →
  (∀ line h, line ∈ lines → names_host line h → g1 h = g2 h) →
  fill g1 (zip lines ks) info = fill g2 (zip lines ks) info.
Proof.
  induction lines as [|line lines IH]; intros ks info H Hg.
  - by apply Forall2_nil_inv_l in H as ->.
  - apply Forall2_cons_inv_l in H as (k & ks' & Hk & Hks & ->). cbn [zip zip_with fill].
    rewrite (append_line_resolver g1 g2 line k info Hk)
      by (intros h; apply Hg, list_elem_of_here).
    destruct (append_line g2 line k info) as [info'|e]; [|done].
    cbn [mbind result_bind]. apply IH; [done|].
    intros l h Hl. by apply Hg, list_elem_of_further.
Qed.

(** X9 ([TFModel._parse_hostfile]): the parse uses the resolver only for the
    host names written in the file: two resolvers that agree on every host
    name a line gives (a line, or its part before the slots, that is a host
    name and not a dotted quad) give the same result, addresses, slots or
    exception alike. *)
Theorem resolver_sees_only_host_names g1 g2 file_lines :
  (∀ line h, line ∈ map Py.rstrip file_lines → names_host line h → g1 h = g2 h) →
  _parse_hostfile g1 file_lines = _parse_hostfile g2 file_lines.
Proof.
  intros Hg. unfold _parse_hostfile.
  destruct (match_lines (map Py.rstrip file_lines)) as [ks|e] eqn:E; [|done].
  cbn [mbind result_bind]. apply fill_resolver; [by apply match_lines_kinds|done].
Qed.

Lemma lstrip_spaces s : Forall (λ c, Py.is_space c = true) s → Py.lstrip s = [].
Proof. induction 1 as [|c s Hc _ IH]; simpl; [done|]. by rewrite Hc. Qed.

Lemma rstrip_spaces s : Forall (λ c, Py.is_space c = true) s → Py.rstrip s = [].
Proof.
  intros H. unfold Py.rstrip. rewrite lstrip_spaces; [done|].
  apply Forall_forall. intros c Hc. rewrite Forall_forall in H.
  apply H. apply list_elem_of_In, in_rev. by apply list_elem_of_In.
Qed.

(** X10 ([TFModel._parse_hostfile]): an empty line, or one of white space
    only, makes the parse fail: if the lines before it are accepted, the
    result is the [ValueError] for an invalid line, with nothing after the
    colon. *)
Theorem blank_line_rejected g pre ws post :
  Forall accepted (map Py.rstrip pre) →
  Forall (λ c, Py.is_space c = true) ws →
  _parse_hostfile g (pre ++ ws :: post)
  = Raise (Exn ValueError "Invalid line in the hostfile: ").
Proof.
  intros Hpre Hws.
  rewrite (parse_rejects g (pre ++ ws :: post) (map Py.rstrip pre) []
             (map Py.rstrip post)); [done| |done|done].
  by rewrite map_app, map_cons, (rstrip_spaces ws Hws).
Qed.

Lemma foreign_chars :
  forallb (λ c, hostfile_char c ||
                forallb (λ kv : kind * re, negb (may_contain kv.2 c)) valid_regexes)
          all_ascii = true.
Proof. vm_compute. reflexivity. Qed.

(** X11 ([TFModel._parse_hostfile]): a line that holds, after its trailing
    white space is dropped, a character other than a letter, a digit, [-],
    [.], [:], a blank or [=] (an underscore, a tab, a [#], a slash) matches
    no pattern: if the lines before it are accepted, the parse raises the
    [ValueError] that quotes it. *)
Theorem foreign_character_rejected g file_lines pre bad post c :
  map Py.rstrip file_lines = pre ++ bad :: post →
  Forall accepted pre →
  c ∈ bad → hostfile_char c = false →
  _parse_hostfile g file_lines
  = Raise (Exn ValueError ("Invalid line in the hostfile: " +:+ Py.to_string bad)).
Proof.
  intros Hl Hpre Hc Hf. apply (parse_rejects g file_lines pre bad post Hl Hpre).
  apply first_match_None. unfold matches_none.
  pose proof foreign_chars as Hall. rewrite forallb_forall in Hall.
  specialize (Hall c (proj1 (list_elem_of_In _ _) (elem_of_all_ascii c))).
  rewrite Hf in Hall. cbn [orb] in Hall. rewrite forallb_forall in Hall.
  apply Forall_forall. intros kv Hkv Hm.
  apply list_elem_of_In, Hall, negb_true_iff in Hkv.
  apply (Matches_avoids _ _ _ Hkv) in Hm. rewrite Forall_forall in Hm.
  by apply (Hm c).
Qed.

End HostfileForms.

Section HostfileFormsExamples.

Import Regex Hostfile HostfileMore.

Lemma resolver_sees_only_host_names_witness :
  _parse_hostfile example_dns six_forms = _parse_hostfile checked_dns six_forms.
Proof.
  apply (resolver_sees_only_host_names example_dns checked_dns six_forms).
  intros line h _ (_ & Hh%matches_spec & _). unfold checked_dns. by rewrite Hh.
Defined.

Lemma blank_line_rejected_witness :
  _parse_hostfile no_dns with_blank_line
  = Raise (Exn ValueError "Invalid line in the hostfile: ").
Proof.
  apply (blank_line_rejected no_dns [Py.of_string "10.0.0.1"] (Py.of_string "  ")
           [Py.of_string "10.0.0.2"]).
  - constructor; [vm_compute; eauto|constructor].
  - constructor; [reflexivity|]. constructor; [reflexivity|constructor].
Defined.

Lemma foreign_character_rejected_witness :
  _parse_hostfile no_dns with_comment
  = Raise (Exn ValueError "Invalid line in the hostfile: # workers").
Proof.
  apply (foreign_character_rejected no_dns with_comment [Py.of_string "10.0.0.1"]
           (Py.of_string "# workers") [Py.of_string "10.0.0.2"] "#"%char).
  - vm_compute. reflexivity.
  - constructor; [vm_compute; eauto|constructor].
  - apply list_elem_of_here.
  - vm_compute. reflexivity.
Defined.

End HostfileFormsExamples.

(** ** [TFModel.set_auto_mixed_precision]: the version threshold *)

Section VersionLemmas.

Import Py.

Lemma of_string_app a b : of_string (a +:+ b) = of_string a ++ of_string b.
Proof. unfold of_string. induction a as [|c a IH]; simpl; [done|]. by rewrite IH. Qed.

Lemma uint_digits d :
  Forall (λ c, is_digit c = true) (of_string (NilEmpty.string_of_uint d)).
Proof. induction d; simpl; constructor; done. Qed.

Lemma to_uint_nonnil n : Nat.to_uint n ≠ Decimal.Nil.
Proof.
  rewrite <- (DecimalNat.Unsigned.of_to n) at 1.
  rewrite DecimalNat.Unsigned.to_of. apply DecimalFacts.unorm_nonnil.
Qed.

Lemma numeral_digits n : Forall (λ c, is_digit c = true) (of_string (str_of_nat n)).
Proof. apply uint_digits. Qed.

Lemma numeral_nonempty n : of_string (str_of_nat n) ≠ [].
Proof.
  unfold str_of_nat. pose proof (to_uint_nonnil n) as H.
  by destruct (Nat.to_uint n).
Qed.

(** Reading the digits of a numeral gives back its number. *)
Lemma int_digits_uint d : ∀ acc,
  int_digits (Z.of_nat acc) true (of_string (NilEmpty.string_of_uint d))
  = Some (Z.of_nat (Nat.of_uint_acc d acc)).
Proof.
  induction d; intros acc; cbn [NilEmpty.string_of_uint of_string list_ascii_of_string
                                int_digits Nat.of_uint_acc]; [done|..];
    fold (of_string (NilEmpty.string_of_uint d));
    match goal with
    | |- context [is_digit ?c] => change (is_digit c) with true
    end; cbn iota; rewrite <- IHd; f_equal; rewrite Nat.tail_mul_spec;
    unfold digit_value;
    match goal with
    | |- context [code ?c] => let n := eval vm_compute in (code c) in
                              change (code c) with n
    end; lia.
Qed.

Lemma int_digits_numeral n :
  int_digits 0 false (of_string (str_of_nat n)) = Some (Z.of_nat n).
Proof.
  unfold str_of_nat. rewrite <- (DecimalNat.Unsigned.of_to n) at 2.
  unfold Nat.of_uint. pose proof (to_uint_nonnil n) as Hn.
  destruct (Nat.to_uint n) as [|d|d|d|d|d|d|d|d|d|d]; [done|..];
    cbn [NilEmpty.string_of_uint of_string list_ascii_of_string int_digits
         Nat.of_uint_acc];
    fold (of_string (NilEmpty.string_of_uint d));
    match goal with
    | |- context [is_digit ?c] => change (is_digit c) with true
    end; cbn iota;
    match goal with
    | |- int_digits ?z true _ = Some (Z.of_nat (Nat.of_uint_acc _ ?a)) =>
        replace z with (Z.of_nat a) by (vm_compute; reflexivity)
    end; apply int_digits_uint.
Qed.

Lemma digit_not_sign c : is_digit c = true → Ascii.eqb c "+" = false ∧ Ascii.eqb c "-" = false.
Proof.
  intros H. split.
  - destruct (Ascii.eqb_spec c "+") as [->|]; [discriminate H|done].
  - destruct (Ascii.eqb_spec c "-") as [->|]; [discriminate H|done].
Qed.

Lemma is_digit_not_int_space c : is_digit c = true → is_int_space c = false.
Proof.
  unfold is_digit, in_range, is_int_space.
  change (code "0") with 48. change (code "9") with 57.
  intros H. apply andb_true_iff in H as [H1 H2].
  apply Nat.leb_le in H1, H2.
  repeat match goal with
         | |- context [(?a <=? ?b)%nat] => destruct (Nat.leb_spec a b)
         | |- context [(?a =? ?b)%nat] => destruct (Nat.eqb_spec a b)
         end; simpl; try reflexivity; lia.
Qed.

Lemma int_strip_digits s :
  s ≠ [] → Forall (λ c, is_digit c = true) s → int_strip s = s.
Proof.
  intros Hne Hs. unfold int_strip.
  assert (skip_int_space s = s) as ->.
  { destruct s as [|c s]; [done|]. simpl.
    by rewrite (is_digit_not_int_space c (Forall_inv Hs)). }
  destruct (exists_last Hne) as (s' & c & ->).
  apply Forall_app in Hs as [_ Hc]. apply Forall_inv in Hc.
  rewrite rev_app_distr. simpl.
  rewrite (is_digit_not_int_space c Hc). simpl. by rewrite rev_involutive.
Qed.

(** [int(str(n)) == n] *)
Lemma int_numeral n : int (of_string (str_of_nat n)) = Ok (Z.of_nat n).
Proof.
  unfold int. rewrite (int_strip_digits _ (numeral_nonempty n) (numeral_digits n)).
  pose proof (int_digits_numeral n) as Hi.
  pose proof (numeral_digits n) as Hd.
  destruct (of_string (str_of_nat n)) as [|c t] eqn:E; [by destruct (numeral_nonempty n)|].
  destruct (digit_not_sign c (Forall_inv Hd)) as [-> ->]. by rewrite Hi.
Qed.

Lemma contains_app sep a b : contains sep (a ++ sep ++ b) = true.
Proof.
  induction a as [|c a IH].
  - destruct (sep ++ b) eqn:E; simpl; rewrite <- E, starts_with_app; done.
  - simpl. rewrite IH. apply orb_true_r.
Qed.

Lemma digits_no_dot s : Forall (λ c, is_digit c = true) s → Forall (λ c, c ≠ "."%char) s.
Proof. intros H. eapply Forall_impl; [exact H|]. intros c Hc ->. discriminate Hc. Qed.

(** The first two pieces of a version string *)
Lemma split_version a b rest :
  Forall (λ c, c ≠ "."%char) a → Forall (λ c, c ≠ "."%char) b →
  rest = [] ∨ (∃ r, rest = "."%char :: r) →
  ∃ tail, split ["."%char] (a ++ ["."%char] ++ b ++ rest) = a :: b :: tail.
Proof.
  intros Ha Hb Hrest. unfold split.
  rewrite split_go_plain by done. rewrite app_nil_r.
  cbn [app split_go starts_with length Nat.sub]. rewrite Ascii.eqb_refl. cbn [andb].
  rewrite rev_involutive.
  rewrite split_go_plain by done. rewrite app_nil_r.
  destruct Hrest as [->|(r & ->)].
  - exists []. simpl. by rewrite rev_involutive.
  - exists (split_go ["."%char] 0 [] r).
    cbn [split_go starts_with length Nat.sub]. rewrite Ascii.eqb_refl. cbn [andb].
    by rewrite rev_involutive.
Qed.

End VersionLemmas.

Section VersionProperties.

Import AMP AMPMore.

(** A version string that starts with two numbers parses to them. *)
Lemma tf_version_dotted M m rest :
  rest = "" ∨ (∃ r, rest = String "." r) →
  tf_version (Some (dotted_version M m rest)) = Ok (Z.of_nat M, Z.of_nat m).
Proof.
  intros Hrest. unfold tf_version, dotted_version.
  rewrite !of_string_app. change (Py.of_string ".") with ["."%char].
  rewrite contains_app.
  destruct (split_version (Py.of_string (str_of_nat M)) (Py.of_string (str_of_nat m))
              (Py.of_string rest)) as (tail & ->).
  - apply digits_no_dot, numeral_digits.
  - apply digits_no_dot, numeral_digits.
  - destruct Hrest as [->|(r & ->)]; [by left|right; by eexists].
  - cbn [length Nat.ltb Nat.leb Py.index lookup list_lookup mbind result_bind].
    rewrite !int_numeral. reflexivity.
Qed.

(** X12 ([TFModel.set_auto_mixed_precision]): with a runtime version that
    reads [M.m] or [M.m.<more>], the two numbers are compared as numbers
    with 2.9: an explicit [True]/[False] on [M = 2 and m >= 9] or [M > 2]
    sets the option to that value, whatever the CPU is, and prints
    "Enabling auto_mixed_precision_mkl" exactly for [True]; on an older
    version it leaves the option alone and prints the warning that quotes
    the version. *)
Theorem explicit_setting_by_version (M m : nat) rest cpu b st :
  rest = "" ∨ (∃ r, rest = String "." r) →
  set_auto_mixed_precision (Some (dotted_version M m rest)) cpu (ArgBool b) st
  = Ok (if bool_decide ((M = 2 ∧ 9 ≤ m) ∨ 2 < M)%nat
        then {| stdout := if b then stdout st ++ ["Enabling auto_mixed_precision_mkl"]
                          else stdout st;
                auto_mixed_precision_mkl := Some b |}
        else {| stdout := stdout st ++ [version_warning (dotted_version M m rest)];
                auto_mixed_precision_mkl := auto_mixed_precision_mkl st |}).
Proof.
  intros Hrest. unfold set_auto_mixed_precision.
  rewrite (tf_version_dotted M m rest Hrest). cbn [mbind result_bind].
  assert (supported (Z.of_nat M, Z.of_nat m)
          = bool_decide ((M = 2 ∧ 9 ≤ m) ∨ 2 < M)%nat) as ->.
  { unfold supported. cbn [fst snd]. apply eq_true_iff_eq.
    rewrite bool_decide_eq_true, orb_true_iff, andb_true_iff.
    rewrite Z.eqb_eq, Z.leb_le, Z.ltb_lt. lia. }
  destruct (bool_decide _); cbn [negb]; [by destruct b|done].
Qed.

Lemma explicit_setting_by_version_witness :
  set_auto_mixed_precision (Some "2.10.1") (DetectionFailed "lscpu not found")
    (ArgBool true) initial
  = Ok {| stdout := ["Enabling auto_mixed_precision_mkl"];
          auto_mixed_precision_mkl := Some true |}.
Proof.
  apply (explicit_setting_by_version 2 10 ".1" (DetectionFailed "lscpu not found")
           true initial).
  right. by eexists.
Defined.

End VersionProperties.
